(** * Atmolite: the view/request state machine of [App]

    A shallow embedding of the [App] component (the controller that holds
    the UI state and sequences the weather lookup and the image generation)
    and of [types.ts], with the properties of its state machine.

    Layout:
    - [Js]      : JavaScript strings as lists of UTF-16 code units, with
                  [String.prototype.trim] and [String.prototype.includes];
    - [Types]   : [types.ts];
    - [Program] : handlers as finite interaction trees ([Prog]) over the
                  component's effects, with the two awaited collaborators;
    - [App]     : the component: state, handlers, render, event dispatch;
    - [Machine] : the event loop (UI events, promise settlements, timers);
    - theorems. *)

From Stdlib Require Import NArith String Ascii List Bool Lia.
From stdpp Require Import base option list strings gmap.
Import ListNotations.

Set Default Proof Using "Type".

(* ===================================================================== *)
(** ** JavaScript strings *)
(* ===================================================================== *)

Module Js.

Local Open Scope N_scope.

(** A JavaScript string is a sequence of UTF-16 code units. *)
Definition jsstring : Type := list N.

(** A source literal (the literals of [App] are ASCII where it matters). *)
Definition lit (s : string) : jsstring :=
  map N_of_ascii (list_ascii_of_string s).

(** ECMAScript [WhiteSpace] and [LineTerminator] code points: what
    [String.prototype.trim] strips. *)
Definition is_white_space (c : N) : bool :=
  ((9 <=? c) && (c <=? 13))      (* TAB, LF, VT, FF, CR *)
  || (c =? 32)                   (* SPACE *)
  || (c =? 160)                  (* NO-BREAK SPACE *)
  || (c =? 5760)                 (* U+1680 *)
  || ((8192 <=? c) && (c <=? 8202))  (* U+2000 .. U+200A *)
  || (c =? 8232) || (c =? 8233)  (* LS, PS *)
  || (c =? 8239)                 (* U+202F *)
  || (c =? 8287)                 (* U+205F *)
  || (c =? 12288)                (* U+3000 *)
  || (c =? 65279).               (* U+FEFF *)

Fixpoint trim_start (s : jsstring) : jsstring :=
  match s with
  | [] => []
  | c :: s' => if is_white_space c then trim_start s' else s
  end.

Definition trim_end (s : jsstring) : jsstring := rev (trim_start (rev s)).

(** [s.trim()] *)
Definition trim (s : jsstring) : jsstring := trim_end (trim_start s).

(** The input is empty or made of white space only. *)
Definition blank (s : jsstring) : bool := forallb is_white_space s.

Fixpoint starts_with (s sub : jsstring) {struct sub} : bool :=
  match sub, s with
  | [], _ => true
  | _ :: _, [] => false
  | c :: sub', d :: s' => (c =? d) && starts_with s' sub'
  end.

(** [s.includes(sub)] *)
Fixpoint includes (s sub : jsstring) : bool :=
  starts_with s sub
  || match s with
     | [] => false
     | _ :: s' => includes s' sub
     end.

(** JavaScript truthiness of a string, and of a possibly [undefined] one. *)
Definition truthy (s : jsstring) : bool :=
  match s with [] => false | _ :: _ => true end.

Definition truthy_opt (o : option jsstring) : bool :=
  match o with Some s => truthy s | None => false end.

(** [a || b] on strings. *)
Definition or_else (a : option jsstring) (b : jsstring) : jsstring :=
  match a with
  | Some s => if truthy s then s else b
  | None => b
  end.

End Js.
Export Js.

(* ===================================================================== *)
(** ** types.ts *)
(* ===================================================================== *)

Module Types.

Record WeatherData : Type := mkWeatherData {
  temperature : jsstring;
  condition : jsstring;
  date : jsstring;
  cityNativeName : jsstring;
  cityName : jsstring;
  iconDescription : jsstring;
  isDay : bool;
  sources : option (list jsstring)
}.

Inductive AppState : Type :=
| IDLE
| FETCHING_WEATHER
| GENERATING_IMAGE
| DISPLAY
| ERROR.

#[export] Instance AppState_eq_dec : EqDecision AppState.
Proof. solve_decision. Defined.

End Types.
Export Types.

(* ===================================================================== *)
(** ** Handlers as programs over the component's effects *)
(* ===================================================================== *)

Module Program.

(** What a [catch (err: any)] clause of [App] reads of the thrown value:
    [err.message], a string or [undefined]. *)
Record JsError : Type := mkError { message : option jsstring }.

(** Callbacks handed to [setTimeout]. *)
Inductive Callback : Type :=
| ShowStoragePermission.   (* () => setShowStoragePermission(true) *)

(** Synchronous effects: the [useState] setters, [localStorage.setItem],
    and the calls whose result [App] ignores. *)
Inductive Effect : Type :=
| SetCityInput (v : jsstring)
| SetAppState (a : AppState)
| SetWeatherData (d : option WeatherData)
| SetGeneratedImage (u : jsstring)
| SetErrorMsg (m : jsstring)
| SetUsername (n : jsstring)
| SetShowOnboarding (b : bool)
| SetShowStoragePermission (b : bool)
| SetShowPrivacy (b : bool)
| LocalStorageSetItem (key : string) (v : jsstring)
| SetTimeout (cb : Callback) (ms : N)
| PreventDefault
| ConsoleError (e : JsError).

(** The settled value of an awaited promise: rejected or fulfilled. *)
Inductive Settled (T : Type) : Type :=
| Rejected (e : JsError)
| Fulfilled (v : T).
Arguments Rejected {T} e.
Arguments Fulfilled {T} v.

(** A handler body: a finite tree of effects.  An [await] node carries the
    rest of the [async] function as a continuation of the settled value. *)
Inductive Prog (A : Type) : Type :=
| Ret (a : A)
| Throw (e : JsError)
| Perform (eff : Effect) (k : Prog A)
| GetItem (key : string) (k : option jsstring -> Prog A)
| AwaitWeather (city : jsstring) (k : Settled WeatherData -> Prog A)
| AwaitImage (data : WeatherData) (k : Settled jsstring -> Prog A).
Arguments Ret {A} a.
Arguments Throw {A} e.
Arguments Perform {A} eff k.
Arguments GetItem {A} key k.
Arguments AwaitWeather {A} city k.
Arguments AwaitImage {A} data k.

Fixpoint bind {A B : Type} (p : Prog A) (f : A -> Prog B) : Prog B :=
  match p with
  | Ret a => f a
  | Throw e => Throw e
  | Perform eff k => Perform eff (bind k f)
  | GetItem key k => GetItem key (fun v => bind (k v) f)
  | AwaitWeather city k => AwaitWeather city (fun r => bind (k r) f)
  | AwaitImage data k => AwaitImage data (fun r => bind (k r) f)
  end.

(** [try { body } catch (err) { handler err }] *)
Fixpoint try_catch {A : Type} (body : Prog A) (handler : JsError -> Prog A)
  : Prog A :=
  match body with
  | Ret a => Ret a
  | Throw e => handler e
  | Perform eff k => Perform eff (try_catch k handler)
  | GetItem key k => GetItem key (fun v => try_catch (k v) handler)
  | AwaitWeather city k => AwaitWeather city (fun r => try_catch (k r) handler)
  | AwaitImage data k => AwaitImage data (fun r => try_catch (k r) handler)
  end.

Definition perform (eff : Effect) : Prog unit := Perform eff (Ret tt).

(** [await p]: the value of a fulfilled promise; a rejection is thrown. *)
Definition settle {T : Type} (r : Settled T) : Prog T :=
  match r with
  | Rejected e => Throw e
  | Fulfilled v => Ret v
  end.

Definition getItem (key : string) : Prog (option jsstring) :=
  GetItem key Ret.

(** [await getCityWeather(city)] and [await generateIsometricCity(data)]:
    the two collaborators of [./services/geminiService]. *)
Definition getCityWeather (city : jsstring) : Prog WeatherData :=
  AwaitWeather city settle.

Definition generateIsometricCity (data : WeatherData) : Prog jsstring :=
  AwaitImage data settle.

Module Import Notations.
Declare Scope prog_scope.
Delimit Scope prog_scope with prog.
Notation "x <- c1 ;; c2" := (bind c1 (fun x => c2))
  (at level 100, c1 at next level, right associativity) : prog_scope.
Notation "c1 ;; c2" := (bind c1 (fun _ => c2))
  (at level 100, right associativity) : prog_scope.
End Notations.

(** The calls to the collaborators, as they show in a trace. *)
Inductive Call : Type :=
| CallGetCityWeather (city : jsstring)
| CallGenerateIsometricCity (data : WeatherData).

Inductive Event : Type :=
| Did (eff : Effect)
| Called (c : Call).

End Program.
Export Program.
Export Program.Notations.

(* ===================================================================== *)
(** ** The state the handlers act on, and how a program runs *)
(* ===================================================================== *)

Module Runtime.

(** The [useState] cells of [App]. *)
Record State : Type := mkState {
  cityInput : jsstring;
  appState : AppState;
  weatherData : option WeatherData;
  generatedImage : jsstring;
  errorMsg : jsstring;
  username : jsstring;
  showOnboarding : bool;
  showStoragePermission : bool;
  showPrivacy : bool
}.

(** The component's cells, [localStorage], and the timers that were set. *)
Record World : Type := mkWorld {
  ui : State;
  localStorage : gmap string jsstring;
  timers : list (Callback * N)
}.

Definition with_ui (f : State -> State) (w : World) : World :=
  {| ui := f (ui w); localStorage := localStorage w; timers := timers w |}.

Definition set_state (eff : Effect) (s : State) : State :=
  match eff with
  | SetCityInput v =>
      mkState v (appState s) (weatherData s) (generatedImage s) (errorMsg s)
        (username s) (showOnboarding s) (showStoragePermission s) (showPrivacy s)
  | SetAppState a =>
      mkState (cityInput s) a (weatherData s) (generatedImage s) (errorMsg s)
        (username s) (showOnboarding s) (showStoragePermission s) (showPrivacy s)
  | SetWeatherData d =>
      mkState (cityInput s) (appState s) d (generatedImage s) (errorMsg s)
        (username s) (showOnboarding s) (showStoragePermission s) (showPrivacy s)
  | SetGeneratedImage u =>
      mkState (cityInput s) (appState s) (weatherData s) u (errorMsg s)
        (username s) (showOnboarding s) (showStoragePermission s) (showPrivacy s)
  | SetErrorMsg m =>
      mkState (cityInput s) (appState s) (weatherData s) (generatedImage s) m
        (username s) (showOnboarding s) (showStoragePermission s) (showPrivacy s)
  | SetUsername n =>
      mkState (cityInput s) (appState s) (weatherData s) (generatedImage s)
        (errorMsg s) n (showOnboarding s) (showStoragePermission s) (showPrivacy s)
  | SetShowOnboarding b =>
      mkState (cityInput s) (appState s) (weatherData s) (generatedImage s)
        (errorMsg s) (username s) b (showStoragePermission s) (showPrivacy s)
  | SetShowStoragePermission b =>
      mkState (cityInput s) (appState s) (weatherData s) (generatedImage s)
        (errorMsg s) (username s) (showOnboarding s) b (showPrivacy s)
  | SetShowPrivacy b =>
      mkState (cityInput s) (appState s) (weatherData s) (generatedImage s)
        (errorMsg s) (username s) (showOnboarding s) (showStoragePermission s) b
  | LocalStorageSetItem _ _ | SetTimeout _ _ | PreventDefault | ConsoleError _ => s
  end.

Definition apply_effect (eff : Effect) (w : World) : World :=
  match eff with
  | LocalStorageSetItem key v =>
      {| ui := ui w; localStorage := <[key := v]> (localStorage w);
         timers := timers w |}
  | SetTimeout cb ms =>
      {| ui := ui w; localStorage := localStorage w;
         timers := timers w ++ [(cb, ms)] |}
  | _ => with_ui (set_state eff) w
  end.

(** An [async] function suspended at an [await]. *)
Inductive Task (A : Type) : Type :=
| WaitWeather (city : jsstring) (k : Settled WeatherData -> Prog A)
| WaitImage (data : WeatherData) (k : Settled jsstring -> Prog A).
Arguments WaitWeather {A} city k.
Arguments WaitImage {A} data k.

Inductive Outcome (A : Type) : Type :=
| Returned (a : A)
| Uncaught (e : JsError)
| Suspended (t : Task A).
Arguments Returned {A} a.
Arguments Uncaught {A} e.
Arguments Suspended {A} t.

Definition Run (A : Type) : Type := (World * list Event * Outcome A)%type.

(** Projections of a run, and a run with one more event in front. *)
Definition final {B : Type} (r : World * list Event * B) : World := r.1.1.
Definition trace {B : Type} (r : World * list Event * B) : list Event := r.1.2.
Definition result {B : Type} (r : World * list Event * B) : B := r.2.

Definition logged {B : Type} (ev : Event) (r : World * list Event * B)
  : World * list Event * B :=
  (final r, ev :: trace r, result r).

(** Run a program up to its first [await]: one turn of the event loop.
    The collaborator is called before the function suspends. *)
Fixpoint run {A : Type} (p : Prog A) (w : World) : Run A :=
  match p with
  | Ret a => (w, [], Returned a)
  | Throw e => (w, [], Uncaught e)
  | Perform eff k => logged (Did eff) (run k (apply_effect eff w))
  | GetItem key k => run (k (localStorage w !! key)) w
  | AwaitWeather city k =>
      (w, [Called (CallGetCityWeather city)], Suspended (WaitWeather city k))
  | AwaitImage data k =>
      (w, [Called (CallGenerateIsometricCity data)], Suspended (WaitImage data k))
  end.

(** The two collaborators as an environment: how each call settles. *)
Record Collaborators : Type := mkCollaborators {
  weather_of : jsstring -> Settled WeatherData;
  image_of : WeatherData -> Settled jsstring
}.

Definition Exec (A : Type) : Type := (World * list Event * Settled A)%type.

(** Run a program to completion, each [await] resumed with what the
    environment settles the call to. *)
Fixpoint exec {A : Type} (env : Collaborators) (p : Prog A) (w : World)
  : Exec A :=
  match p with
  | Ret a => (w, [], Fulfilled a)
  | Throw e => (w, [], Rejected e)
  | Perform eff k => logged (Did eff) (exec env k (apply_effect eff w))
  | GetItem key k => exec env (k (localStorage w !! key)) w
  | AwaitWeather city k =>
      logged (Called (CallGetCityWeather city))
        (exec env (k (weather_of env city)) w)
  | AwaitImage data k =>
      logged (Called (CallGenerateIsometricCity data))
        (exec env (k (image_of env data)) w)
  end.

End Runtime.
Export Runtime.

(* ===================================================================== *)
(** ** The component *)
(* ===================================================================== *)

Module App.

Local Open Scope prog_scope.

Definition AD_BANNER_ID : string := "ca-app-pub-3940256099942544/6300978111".
Definition USERNAME_KEY : string := "Atmolite_username".
Definition STORAGE_PERMISSION_KEY : string := "Atmolite_storage_permission".

(** The initial values of the [useState] cells. *)
Definition initialState : State :=
  {| cityInput := lit "";
     appState := IDLE;
     weatherData := None;
     generatedImage := lit "";
     errorMsg := lit "";
     username := lit "";
     showOnboarding := false;
     showStoragePermission := false;
     showPrivacy := false |}.

Definition checkStoragePermission : Prog unit :=
  hasPermission <- getItem STORAGE_PERMISSION_KEY ;;
  if negb (truthy_opt hasPermission)
  then perform (SetShowStoragePermission true)
  else Ret tt.

(** The mount effect ([useEffect]). *)
Definition mountEffect : Prog unit :=
  storedName <- getItem USERNAME_KEY ;;
  if negb (truthy_opt storedName)
  then perform (SetShowOnboarding true)
  else (perform (SetUsername (default [] storedName)) ;;
        checkStoragePermission).

Definition handleSaveName (name : jsstring) : Prog unit :=
  perform (LocalStorageSetItem USERNAME_KEY name) ;;
  perform (SetUsername name) ;;
  perform (SetShowOnboarding false) ;;
  perform (SetTimeout ShowStoragePermission 500).

Definition handleStorageDecision (allowed : bool) : Prog unit :=
  perform (LocalStorageSetItem STORAGE_PERMISSION_KEY
             (if allowed then lit "granted" else lit "denied")) ;;
  perform (SetShowStoragePermission false).

(** The form event handed to [onSubmit]. *)
Inductive FormEvent : Type := formEvent.

(** The [catch] clause of [handleSearch]. *)
Definition handleSearch_catch (err : JsError) : Prog unit :=
  perform (ConsoleError err) ;;
  if bool_decide (message err = Some (lit "MISSING_API_KEY")) then
    perform (SetErrorMsg (lit "API Key missing! Please check configuration.")) ;;
    perform (SetAppState ERROR)
  else if match message err with
          | Some m =>
              truthy m && (includes m (lit "403")
                           || includes m (lit "Permission Denied"))
          | None => false
          end then
    perform (SetErrorMsg (lit "Access Denied. Please check API Key.")) ;;
    perform (SetAppState ERROR)
  else
    perform (SetErrorMsg
               (or_else (message err)
                  (lit "Unable to retrieve city data. Please try again."))) ;;
    perform (SetAppState ERROR).

(** [handleSearch], a callback over the [cityInput] of the render that
    created it. *)
Definition handleSearch (cityInput : jsstring) (e : option FormEvent)
  : Prog unit :=
  (match e with Some _ => perform PreventDefault | None => Ret tt end) ;;
  if negb (truthy (trim cityInput)) then Ret tt
  else
    try_catch
      (perform (SetErrorMsg (lit "")) ;;
       perform (SetAppState FETCHING_WEATHER) ;;
       data <- getCityWeather cityInput ;;
       perform (SetWeatherData (Some data)) ;;
       perform (SetAppState GENERATING_IMAGE) ;;
       imageUrl <- generateIsometricCity data ;;
       perform (SetGeneratedImage imageUrl) ;;
       perform (SetAppState DISPLAY))
      handleSearch_catch.

Definition handleReset : Prog unit :=
  perform (SetAppState IDLE) ;;
  perform (SetCityInput (lit "")) ;;
  perform (SetWeatherData None) ;;
  perform (SetGeneratedImage (lit "")).

Definition handleOpenPrivacy : Prog unit := perform (SetShowPrivacy true).
Definition handleClosePrivacy : Prog unit := perform (SetShowPrivacy false).
Definition handleAllowStorage : Prog unit := handleStorageDecision true.
Definition handleDenyStorage : Prog unit := handleStorageDecision false.

(** The timer callbacks. *)
Definition callback (cb : Callback) : Prog unit :=
  match cb with
  | ShowStoragePermission => perform (SetShowStoragePermission true)
  end.

Definition isDailyLimitError (s : State) : bool :=
  includes (errorMsg s) (lit "Daily free limit reached").

Definition isRpmError (s : State) : bool :=
  includes (errorMsg s) (lit "Too many requests").

Definition isModalOpen (s : State) : bool :=
  showOnboarding s || showStoragePermission s.

(** [appState === AppState.DISPLAY && !weatherData?.isDay] *)
Definition isDarkBg (s : State) : bool :=
  bool_decide (appState s = DISPLAY)
  && negb (match weatherData s with Some d => isDay d | None => false end).

(** *** What [App] returns *)

Inductive Icon : Type := Hourglass | ThunderCloud.

(** The generic error panel, with the classes and texts that depend on
    [isRpmError]. *)
Record ErrorPanel : Type := mkErrorPanel {
  panelBackground : string;
  panelIcon : Icon;
  panelTitle : string;
  panelTitleClass : string;
  panelTextClass : string;
  panelMessage : jsstring;
  panelButtonClass : string;
  panelButtonLabel : string;
  panelOnClick : Prog unit
}.

Record UserMenuProps : Type := mkUserMenu {
  menuUsername : jsstring;
  menuOnOpenPrivacy : Prog unit;
  menuIsDarkBackground : bool
}.

(** The screens, one per [appState] guard of the JSX. *)
Inductive Screen : Type :=
| EntryForm (value : jsstring) (onChange : jsstring -> Prog unit)
    (onSubmit : FormEvent -> Prog unit)
| GlassyLoader (status : jsstring)
| TiredMascot (onReset : Prog unit)
| ErrorScreen (panel : ErrorPanel)
| WeatherScreen (image : jsstring) (data : WeatherData)
    (shareUsername : jsstring) (shareIsDarkBackground : bool)
    (onClick : Prog unit)
| NoScreen.

Record View : Type := mkView {
  onboarding : option (jsstring -> Prog unit);       (* onComplete *)
  storagePermission : option (Prog unit * Prog unit); (* onAllow, onDeny *)
  privacyPolicy : option (Prog unit);                 (* onClose *)
  userMenu : option UserMenuProps;
  screen : Screen;
  adBanner : option string                            (* adUnitId *)
}.

Definition when {A : Type} (b : bool) (a : A) : option A :=
  if b then Some a else None.

Definition errorPanel (s : State) : ErrorPanel :=
  let rpm := isRpmError s in
  {| panelBackground := if rpm then "bg-amber-50" else "bg-red-50";
     panelIcon := if rpm then Hourglass else ThunderCloud;
     panelTitle := if rpm then "Too Fast!" else "Oops!";
     panelTitleClass := if rpm then "text-amber-800" else "text-red-800";
     panelTextClass := if rpm then "text-amber-700" else "text-red-600";
     panelMessage := errorMsg s;
     panelButtonClass :=
       if rpm then "bg-amber-200 text-amber-900 hover:bg-amber-300"
       else "bg-red-100 text-red-800 hover:bg-red-200";
     panelButtonLabel := if rpm then "Wait a moment" else "Try Again";
     panelOnClick := handleReset |}.

Definition loaderStatus (s : State) : jsstring :=
  if bool_decide (appState s = FETCHING_WEATHER)
  then lit "Consulting the skies..."
  else lit "Painting "
       ++ or_else (cityNativeName <$> weatherData s) (cityInput s)
       ++ lit "...".

Definition renderScreen (s : State) : Screen :=
  match appState s with
  | IDLE =>
      EntryForm (cityInput s)
        (fun v => perform (SetCityInput v))
        (fun e => handleSearch (cityInput s) (Some e))
  | FETCHING_WEATHER | GENERATING_IMAGE => GlassyLoader (loaderStatus s)
  | ERROR =>
      if isDailyLimitError s then TiredMascot handleReset
      else ErrorScreen (errorPanel s)
  | DISPLAY =>
      match weatherData s with
      | Some data =>
          WeatherScreen (generatedImage s) data (username s) (isDarkBg s)
            handleReset
      | None => NoScreen
      end
  end.

Definition render (s : State) : View :=
  {| onboarding := when (showOnboarding s) handleSaveName;
     storagePermission :=
       when (showStoragePermission s) (handleAllowStorage, handleDenyStorage);
     privacyPolicy := when (showPrivacy s) handleClosePrivacy;
     userMenu :=
       when (negb (isModalOpen s) && negb (isDailyLimitError s))
         (mkUserMenu (username s) handleOpenPrivacy (isDarkBg s));
     screen := renderScreen s;
     adBanner := when (negb (isDailyLimitError s)) AD_BANNER_ID |}.

(** *** User events, and the callback the rendered tree has for each *)

Inductive UiEvent : Type :=
| OnboardingComplete (name : jsstring)
| StorageAllow
| StorageDeny
| PrivacyClose
| OpenPrivacy
| InputChange (v : jsstring)
| FormSubmit
| ResetClick.

#[export] Instance UiEvent_eq_dec : EqDecision UiEvent.
Proof. solve_decision. Defined.

Definition dispatch (v : View) (ev : UiEvent) : option (Prog unit) :=
  match ev with
  | OnboardingComplete name => (fun f => f name) <$> onboarding v
  | StorageAllow => fst <$> storagePermission v
  | StorageDeny => snd <$> storagePermission v
  | PrivacyClose => privacyPolicy v
  | OpenPrivacy => menuOnOpenPrivacy <$> userMenu v
  | InputChange x =>
      match screen v with
      | EntryForm _ onChange _ => Some (onChange x)
      | _ => None
      end
  | FormSubmit =>
      match screen v with
      | EntryForm _ _ onSubmit => Some (onSubmit formEvent)
      | _ => None
      end
  | ResetClick =>
      match screen v with
      | TiredMascot onReset => Some onReset
      | ErrorScreen panel => Some (panelOnClick panel)
      | WeatherScreen _ _ _ _ onClick => Some onClick
      | _ => None
      end
  end.

End App.
Export App.

(* ===================================================================== *)
(** ** The event loop *)
(* ===================================================================== *)

Module Machine.

(** The mounted component: its world and the [async] handlers in flight. *)
Record Sys : Type := mkSys {
  world : World;
  tasks : list (Task unit)
}.

(** What the event loop can deliver next. *)
Inductive Label : Type :=
| Ui (ev : UiEvent)
| WeatherSettles (i : nat) (r : Settled WeatherData)
| ImageSettles (i : nat) (r : Settled jsstring)
| TimerFires (i : nat).

(** One turn: run [p] to its first [await]; a suspended function joins the
    tasks in flight.  (A rejection nobody catches is dropped.) *)
Definition turn (p : Prog unit) (w : World) (rest : list (Task unit))
  : Sys * list Event :=
  let r := run p w in
  ({| world := final r;
      tasks := rest ++ match result r with
                       | Suspended t => [t]
                       | Returned _ | Uncaught _ => []
                       end |},
   trace r).

Definition clear_timer (i : nat) (w : World) : World :=
  {| ui := ui w; localStorage := localStorage w;
     timers := delete i (timers w) |}.

(** [step l s] is [None] when [l] cannot happen in [s]: the rendered tree
    has no element with that callback, or no such task or timer exists. *)
Definition step (l : Label) (s : Sys) : option (Sys * list Event) :=
  match l with
  | Ui ev =>
      (fun p => turn p (world s) (tasks s))
        <$> dispatch (render (ui (world s))) ev
  | WeatherSettles i r =>
      match tasks s !! i with
      | Some (WaitWeather _ k) =>
          Some (turn (k r) (world s) (delete i (tasks s)))
      | _ => None
      end
  | ImageSettles i r =>
      match tasks s !! i with
      | Some (WaitImage _ k) =>
          Some (turn (k r) (world s) (delete i (tasks s)))
      | _ => None
      end
  | TimerFires i =>
      match timers (world s) !! i with
      | Some (cb, _) =>
          Some (turn (callback cb) (clear_timer i (world s)) (tasks s))
      | None => None
      end
  end.

(** The same as a total function: what cannot happen changes nothing. *)
Definition react (l : Label) (s : Sys) : Sys * list Event :=
  default (s, []) (step l s).

(** The component after mounting, over a given [localStorage]. *)
Definition init (storage : gmap string jsstring) : Sys :=
  (turn mountEffect
     {| ui := initialState; localStorage := storage; timers := [] |} []).1.

(** The states the event loop can reach when the environment only
    delivers labels satisfying [ok]. *)
Inductive reachable (ok : Label -> Prop) : Sys -> Prop :=
| reachable_init storage : reachable ok (init storage)
| reachable_step s l s' tr :
    reachable ok s -> ok l -> step l s = Some (s', tr) -> reachable ok s'.

(** Deliver a sequence of labels, if each can happen in its turn. *)
Fixpoint walk (ls : list Label) (s : Sys) : option Sys :=
  match ls with
  | [] => Some s
  | l :: ls' =>
      match step l s with
      | Some (s', _) => walk ls' s'
      | None => None
      end
  end.

(** Modelled from the spec: [generateIsometricCity] lives in
    [./services/geminiService], which is not part of the sources at hand.
    The spec describes what it yields as an image reference, "an opaque
    string (URL or data reference) identifying the rendered scene"; a
    fulfilled generation is therefore taken to carry a non-empty string. *)
Definition image_reference (u : jsstring) : Prop := u <> [].

(** The environment fulfils generations only with strings satisfying [P]. *)
Definition delivers (P : jsstring -> Prop) (l : Label) : Prop :=
  match l with
  | ImageSettles _ (Fulfilled u) => P u
  | _ => True
  end.

Definition collaborator_contract : Label -> Prop := delivers image_reference.

(** No assumption on the environment. *)
Definition any_label : Label -> Prop := fun _ => True.

(** The rest of [handleSearch] after each of its two [await]s. *)
Definition afterWeather (r : Settled WeatherData) : Prog unit :=
  try_catch
    (data <- settle r ;;
     perform (SetWeatherData (Some data)) ;;
     perform (SetAppState GENERATING_IMAGE) ;;
     imageUrl <- generateIsometricCity data ;;
     perform (SetGeneratedImage imageUrl) ;;
     perform (SetAppState DISPLAY))%prog
    handleSearch_catch.

Definition afterImage (r : Settled jsstring) : Prog unit :=
  try_catch
    (imageUrl <- settle r ;;
     perform (SetGeneratedImage imageUrl) ;;
     perform (SetAppState DISPLAY))%prog
    handleSearch_catch.

End Machine.
Export Machine.

(* ===================================================================== *)
(** ** Vocabulary of the statements *)
(* ===================================================================== *)

Module Observe.

(** The effects and the collaborator calls of a trace, in order. *)
Definition effects (tr : list Event) : list Effect :=
  omap (fun ev => match ev with Did eff => Some eff | Called _ => None end) tr.

Definition calls (tr : list Event) : list Call :=
  omap (fun ev => match ev with Did _ => None | Called c => Some c end) tr.

(** The successive values given to [appState]. *)
Definition appStates (tr : list Event) : list AppState :=
  omap (fun ev => match ev with Did (SetAppState a) => Some a | _ => None end) tr.

Definition replay (effs : list Effect) (w : World) : World :=
  foldl (fun w eff => apply_effect eff w) w effs.

(** What [if (e) e.preventDefault()] leaves in the trace. *)
Definition prevented (e : option FormEvent) : list Event :=
  match e with Some _ => [Did PreventDefault] | None => [] end.

(** The message the [catch] clause of [handleSearch] stores for [err]. *)
Definition classified (err : JsError) : jsstring :=
  if bool_decide (message err = Some (lit "MISSING_API_KEY")) then
    lit "API Key missing! Please check configuration."
  else if match message err with
          | Some m =>
              truthy m && (includes m (lit "403")
                           || includes m (lit "Permission Denied"))
          | None => false
          end then
    lit "Access Denied. Please check API Key."
  else
    or_else (message err)
      (lit "Unable to retrieve city data. Please try again.").

(** A submission of [c] fails with [err]: the lookup is rejected, or the
    lookup is fulfilled and the generation is rejected. *)
Definition fails (env : Collaborators) (c : jsstring) (err : JsError) : Prop :=
  weather_of env c = Rejected err
  \/ exists d, weather_of env c = Fulfilled d /\ image_of env d = Rejected err.

(** The cells of the fetch state machine (all but the input and the
    overlay flags). *)
Definition request (s : State)
  : AppState * option WeatherData * jsstring * jsstring :=
  (appState s, weatherData s, generatedImage s, errorMsg s).

(** The callbacks the tree rendered from [s] hands to its elements. *)
Inductive offered (s : State) : Prog unit -> Prop :=
| offered_saveName name :
    showOnboarding s = true -> offered s (handleSaveName name)
| offered_allowStorage :
    showStoragePermission s = true -> offered s handleAllowStorage
| offered_denyStorage :
    showStoragePermission s = true -> offered s handleDenyStorage
| offered_closePrivacy :
    showPrivacy s = true -> offered s handleClosePrivacy
| offered_openPrivacy :
    isModalOpen s = false -> isDailyLimitError s = false ->
    offered s handleOpenPrivacy
| offered_change v :
    appState s = IDLE -> offered s (perform (SetCityInput v))
| offered_search :
    appState s = IDLE ->
    offered s (handleSearch (cityInput s) (Some formEvent))
| offered_reset :
    appState s = ERROR \/ (appState s = DISPLAY /\ is_Some (weatherData s)) ->
    offered s handleReset.

(** The programs that leave the fetch state machine alone. *)
Inductive overlay : Prog unit -> Prop :=
| overlay_saveName name : overlay (handleSaveName name)
| overlay_storage allowed : overlay (handleStorageDecision allowed)
| overlay_closePrivacy : overlay handleClosePrivacy
| overlay_openPrivacy : overlay handleOpenPrivacy
| overlay_change v : overlay (perform (SetCityInput v))
| overlay_callback cb : overlay (callback cb).

(** The invariant of the event loop: the tasks in flight match [appState],
    and [DISPLAY] comes with a record and an image satisfying [P]. *)
Inductive coherent (P : jsstring -> Prop) : Sys -> Prop :=
| coherent_settled w :
    appState (ui w) = IDLE \/ appState (ui w) = ERROR ->
    coherent P (mkSys w [])
| coherent_display w d :
    appState (ui w) = DISPLAY -> weatherData (ui w) = Some d ->
    P (generatedImage (ui w)) ->
    coherent P (mkSys w [])
| coherent_fetching w c :
    appState (ui w) = FETCHING_WEATHER ->
    coherent P (mkSys w [WaitWeather c afterWeather])
| coherent_generating w d :
    appState (ui w) = GENERATING_IMAGE -> weatherData (ui w) = Some d ->
    coherent P (mkSys w [WaitImage d afterImage]).

End Observe.
Export Observe.

Arguments lit : simpl never.
Arguments handleSearch_catch : simpl never.
Arguments handleSearch : simpl never.
Arguments handleReset : simpl never.
Arguments handleSaveName : simpl never.
Arguments handleStorageDecision : simpl never.
Arguments handleAllowStorage : simpl never.
Arguments handleDenyStorage : simpl never.
Arguments handleOpenPrivacy : simpl never.
Arguments handleClosePrivacy : simpl never.
Arguments turn : simpl never.
Arguments afterWeather : simpl never.
Arguments afterImage : simpl never.


(* ===================================================================== *)
(** ** Sample data *)
(* ===================================================================== *)

Module Samples.

Definition kyoto : WeatherData :=
  {| temperature := lit "18C";
     condition := lit "Cloudy";
     date := lit "Mon";
     cityNativeName := lit "Kyoto";
     cityName := lit "Kyoto";
     iconDescription := lit "cloudy";
     isDay := true;
     sources := None |}.

Definition picture : jsstring := lit "data:image/png;base64,AAAA".

Definition failing (m : string) : JsError := mkError (Some (lit m)).

Definition typed (city : string) : World :=
  {| ui := set_state (SetCityInput (lit city)) initialState;
     localStorage := ∅; timers := [] |}.

Definition answers (w : Settled WeatherData) (i : Settled jsstring)
  : Collaborators :=
  {| weather_of := fun _ => w; image_of := fun _ => i |}.

(** A first visit: type a city, submit, both calls fulfilled. *)
Definition visit : list Label :=
  [Ui (InputChange (lit "Kyoto")); Ui FormSubmit;
   WeatherSettles 0 (Fulfilled kyoto); ImageSettles 0 (Fulfilled picture)].

Definition visited : Sys :=
  default (init ∅) (walk visit (init ∅)).

End Samples.


(* ===================================================================== *)
(** ** The diagram of the fetch state machine, and sessions *)
(* ===================================================================== *)

Module Diagram.

(** The moves of the world in one turn of the event loop: an overlay
    callback, a timer, or one of the six moves of [handleSearch] and
    [handleReset]. *)
Inductive transition (w : World) : World -> Prop :=
| transition_overlay p :
    overlay p -> transition w (final (run p w))
| transition_timer i cb ms :
    timers w !! i = Some (cb, ms) ->
    transition w (final (run (callback cb) (clear_timer i w)))
| transition_blank :
    appState (ui w) = IDLE -> blank (cityInput (ui w)) = true ->
    transition w w
| transition_submit :
    appState (ui w) = IDLE -> blank (cityInput (ui w)) = false ->
    transition w (replay [SetErrorMsg []; SetAppState FETCHING_WEATHER] w)
| transition_reset :
    appState (ui w) = ERROR \/ appState (ui w) = DISPLAY ->
    transition w
      (replay [SetAppState IDLE; SetCityInput []; SetWeatherData None;
               SetGeneratedImage []] w)
| transition_failed err :
    appState (ui w) = FETCHING_WEATHER \/ appState (ui w) = GENERATING_IMAGE ->
    transition w (replay [SetErrorMsg (classified err); SetAppState ERROR] w)
| transition_fetched d :
    appState (ui w) = FETCHING_WEATHER ->
    transition w
      (replay [SetWeatherData (Some d); SetAppState GENERATING_IMAGE] w)
| transition_painted u :
    appState (ui w) = GENERATING_IMAGE ->
    transition w (replay [SetGeneratedImage u; SetAppState DISPLAY] w).

(** The arrows between the values of [appState] (staying put included). *)
Definition edge (a b : AppState) : bool :=
  match a, b with
  | IDLE, (IDLE | FETCHING_WEATHER)
  | FETCHING_WEATHER, (FETCHING_WEATHER | GENERATING_IMAGE | ERROR)
  | GENERATING_IMAGE, (GENERATING_IMAGE | DISPLAY | ERROR)
  | DISPLAY, (DISPLAY | IDLE)
  | ERROR, (ERROR | IDLE) => true
  | _, _ => false
  end.

(** Which cells are empty in which state. *)
Definition tidy (s : State) : Prop :=
  match appState s with
  | IDLE => weatherData s = None /\ generatedImage s = []
  | FETCHING_WEATHER =>
      weatherData s = None /\ generatedImage s = [] /\ errorMsg s = []
  | GENERATING_IMAGE => generatedImage s = [] /\ errorMsg s = []
  | DISPLAY => errorMsg s = []
  | ERROR => generatedImage s = [] /\ errorMsg s <> []
  end.

(** A later session: the component mounted again over the [localStorage]
    that [w] leaves behind. *)
Definition remount (w : World) : Sys := init (localStorage w).

End Diagram.
Export Diagram.

Module Tour.

(** The lookup fulfilled, the generation still in flight. *)
Definition to_painting : list Label :=
  [Ui (InputChange (lit "Kyoto")); Ui FormSubmit;
   WeatherSettles 0 (Fulfilled Samples.kyoto)].

Definition painting : Sys := default (init ∅) (walk to_painting (init ∅)).

(** The lookup rejected for the daily quota. *)
Definition to_refused : list Label :=
  [Ui (InputChange (lit "Kyoto")); Ui FormSubmit;
   WeatherSettles 0 (Rejected (Samples.failing "Daily free limit reached"))].

Definition refused : Sys := default (init ∅) (walk to_refused (init ∅)).

(** What a returning user does in a session: reads the privacy policy,
    looks a city up, and resets. *)
Definition returning : list Label :=
  [Ui OpenPrivacy; Ui PrivacyClose;
   Ui (InputChange (lit "Kyoto")); Ui FormSubmit;
   WeatherSettles 0 (Fulfilled Samples.kyoto);
   ImageSettles 0 (Fulfilled Samples.picture); Ui ResetClick].

(** The world a first session leaves: the name saved, storage denied. *)
Definition home : World :=
  final (run (handleStorageDecision false)
           (final (run (handleSaveName (lit "Ada")) (world (init ∅))))).

(** The returning user's session over the storage of [home]. *)
Definition returned : Sys :=
  default (init ∅) (walk returning (remount home)).

End Tour.

(* ===================================================================== *)
(** ** Facts about the string operations *)
(* ===================================================================== *)

Module JsFacts.

Lemma trim_start_nil (s : jsstring) : trim_start s = [] <-> blank s = true.
Proof.
  induction s as [|c s IH]; cbn; [tauto|].
  destruct (is_white_space c); cbn; [exact IH|].
  split; discriminate.
Qed.

Lemma blank_app (s t : jsstring) : blank (s ++ t) = blank s && blank t.
Proof. apply forallb_app. Qed.

Lemma blank_rev (s : jsstring) : blank (rev s) = blank s.
Proof.
  induction s as [|c s IH]; cbn; [reflexivity|].
  rewrite blank_app, IH. cbn. rewrite andb_true_r. apply andb_comm.
Qed.

Lemma blank_trim_start (s : jsstring) : blank (trim_start s) = blank s.
Proof.
  induction s as [|c s IH]; cbn; [reflexivity|].
  destruct (is_white_space c) eqn:E; cbn; [exact IH|].
  now rewrite E.
Qed.

Lemma trim_nil (s : jsstring) : trim s = [] <-> blank s = true.
Proof.
  unfold trim, trim_end.
  rewrite <- (blank_trim_start s), <- (blank_rev (trim_start s)).
  rewrite <- trim_start_nil.
  split; intros H.
  - apply (f_equal (@rev N)) in H. now rewrite rev_involutive in H.
  - now rewrite H.
Qed.

(** [!s.trim()] holds exactly of the empty and white-space-only strings. *)
Lemma truthy_trim (s : jsstring) : truthy (trim s) = negb (blank s).
Proof.
  destruct (blank s) eqn:E.
  - apply trim_nil in E. now rewrite E.
  - destruct (trim s) eqn:T; [|reflexivity].
    apply trim_nil in T. congruence.
Qed.

Lemma starts_with_spec (s sub : jsstring) :
  starts_with s sub = true <-> exists b, s = sub ++ b.
Proof.
  revert s; induction sub as [|c sub IH]; intros s; cbn.
  - split; [intros _; now exists s|reflexivity].
  - destruct s as [|d s].
    + split; [discriminate|intros [b Hb]; discriminate].
    + rewrite andb_true_iff, N.eqb_eq, IH. split.
      * intros [-> [b ->]]. now exists b.
      * intros [b Hb]. injection Hb as -> ->. split; [reflexivity|now exists b].
Qed.

(** [includes] is the substring test. *)
Lemma includes_spec (s sub : jsstring) :
  includes s sub = true <-> exists a b, s = a ++ sub ++ b.
Proof.
  induction s as [|d s IH].
  - cbn [includes]. rewrite orb_false_r, starts_with_spec. split.
    + intros [b Hb]. now exists [], b.
    + intros [a [b Hb]]. destruct a; [now exists b|discriminate].
  - cbn [includes]. rewrite orb_true_iff, starts_with_spec, IH. split.
    + intros [[b Hb]|[a [b Hb]]].
      * now exists [], b.
      * exists (d :: a), b. now rewrite Hb.
    + intros [[|x a] [b Hb]].
      * left. now exists b.
      * right. injection Hb as -> ->. now exists a, b.
Qed.

Lemma includes_nonempty (s sub : jsstring) :
  includes s sub = true -> truthy sub = true -> truthy s = true.
Proof. destruct s, sub; cbn; intros; congruence. Qed.

End JsFacts.

(* ===================================================================== *)
(** ** Facts about the handlers *)
(* ===================================================================== *)

Module HandlerFacts.

(** The final world of an execution is its effects replayed. *)
Lemma exec_replay {A : Type} (env : Collaborators) (p : Prog A) (w : World) :
  final (exec env p w) = replay (effects (trace (exec env p w))) w.
Proof.
  revert w.
  induction p as [a|err|eff k IH|key k IH|city k IH|data k IH]; intros w;
    cbn; try reflexivity; apply IH.
Qed.

Lemma run_catch (err : JsError) (w : World) :
  run (handleSearch_catch err) w =
  (replay [SetErrorMsg (classified err); SetAppState ERROR] w,
   [Did (ConsoleError err); Did (SetErrorMsg (classified err));
    Did (SetAppState ERROR)],
   Returned tt).
Proof.
  unfold handleSearch_catch, classified.
  destruct (bool_decide _); [reflexivity|].
  destruct (match message err with Some _ => _ | None => _ end); reflexivity.
Qed.

Lemma exec_catch (env : Collaborators) (err : JsError) (w : World) :
  exec env (handleSearch_catch err) w =
  (replay [SetErrorMsg (classified err); SetAppState ERROR] w,
   [Did (ConsoleError err); Did (SetErrorMsg (classified err));
    Did (SetAppState ERROR)],
   Fulfilled tt).
Proof.
  unfold handleSearch_catch, classified.
  destruct (bool_decide _); [reflexivity|].
  destruct (match message err with Some _ => _ | None => _ end); reflexivity.
Qed.

Lemma run_handleSearch_blank (c : jsstring) (e : option FormEvent) (w : World) :
  blank c = true ->
  run (handleSearch c e) w = (w, prevented e, Returned tt).
Proof.
  intros H. unfold handleSearch.
  destruct e; cbn; rewrite JsFacts.truthy_trim, H; cbn; destruct w; reflexivity.
Qed.

Lemma run_handleSearch_start (c : jsstring) (e : option FormEvent) (w : World) :
  blank c = false ->
  run (handleSearch c e) w =
  (replay [SetErrorMsg []; SetAppState FETCHING_WEATHER] w,
   prevented e ++ [Did (SetErrorMsg []); Did (SetAppState FETCHING_WEATHER);
                   Called (CallGetCityWeather c)],
   Suspended (WaitWeather c afterWeather)).
Proof.
  intros H. unfold handleSearch.
  destruct e; cbn; rewrite JsFacts.truthy_trim, H; reflexivity.
Qed.

Lemma run_afterWeather (r : Settled WeatherData) (w : World) :
  run (afterWeather r) w =
  match r with
  | Rejected err => run (handleSearch_catch err) w
  | Fulfilled d =>
      (replay [SetWeatherData (Some d); SetAppState GENERATING_IMAGE] w,
       [Did (SetWeatherData (Some d)); Did (SetAppState GENERATING_IMAGE);
        Called (CallGenerateIsometricCity d)],
       Suspended (WaitImage d afterImage))
  end.
Proof. destruct r; reflexivity. Qed.

Lemma run_afterImage (r : Settled jsstring) (w : World) :
  run (afterImage r) w =
  match r with
  | Rejected err => run (handleSearch_catch err) w
  | Fulfilled u =>
      (replay [SetGeneratedImage u; SetAppState DISPLAY] w,
       [Did (SetGeneratedImage u); Did (SetAppState DISPLAY)],
       Returned tt)
  end.
Proof. destruct r; reflexivity. Qed.

Lemma run_handleReset (w : World) :
  run handleReset w =
  (replay [SetAppState IDLE; SetCityInput []; SetWeatherData None;
           SetGeneratedImage []] w,
   [Did (SetAppState IDLE); Did (SetCityInput []); Did (SetWeatherData None);
    Did (SetGeneratedImage [])],
   Returned tt).
Proof. reflexivity. Qed.

Lemma run_overlay (p : Prog unit) (w : World) :
  overlay p ->
  exists w' tr, run p w = (w', tr, Returned tt)
                /\ request (ui w') = request (ui w).
Proof.
  intros [name|allowed| | |v|[]]; eexists _, _; split; reflexivity.
Qed.

Section Exec.

Context (env : Collaborators) (c : jsstring) (e : option FormEvent) (w : World).

Lemma exec_handleSearch_blank :
  blank c = true ->
  exec env (handleSearch c e) w = (w, prevented e, Fulfilled tt).
Proof.
  intros H. unfold handleSearch.
  destruct e; cbn; rewrite JsFacts.truthy_trim, H; cbn; destruct w; reflexivity.
Qed.

Lemma exec_handleSearch_lookup_fails (err : JsError) :
  blank c = false -> weather_of env c = Rejected err ->
  trace (exec env (handleSearch c e) w) =
    prevented e ++
    [Did (SetErrorMsg []); Did (SetAppState FETCHING_WEATHER);
     Called (CallGetCityWeather c);
     Did (ConsoleError err); Did (SetErrorMsg (classified err));
     Did (SetAppState ERROR)].
Proof.
  intros Hc Hw. unfold handleSearch.
  destruct e; cbn; rewrite JsFacts.truthy_trim, Hc; cbn; rewrite Hw; cbn;
    rewrite exec_catch; reflexivity.
Qed.

Lemma exec_handleSearch_generation_fails (d : WeatherData) (err : JsError) :
  blank c = false -> weather_of env c = Fulfilled d ->
  image_of env d = Rejected err ->
  trace (exec env (handleSearch c e) w) =
    prevented e ++
    [Did (SetErrorMsg []); Did (SetAppState FETCHING_WEATHER);
     Called (CallGetCityWeather c);
     Did (SetWeatherData (Some d)); Did (SetAppState GENERATING_IMAGE);
     Called (CallGenerateIsometricCity d);
     Did (ConsoleError err); Did (SetErrorMsg (classified err));
     Did (SetAppState ERROR)].
Proof.
  intros Hc Hw Hi. unfold handleSearch.
  destruct e; cbn; rewrite JsFacts.truthy_trim, Hc; cbn; rewrite Hw; cbn;
    rewrite Hi; cbn; rewrite exec_catch; reflexivity.
Qed.

Lemma exec_handleSearch_succeeds (d : WeatherData) (u : jsstring) :
  blank c = false -> weather_of env c = Fulfilled d ->
  image_of env d = Fulfilled u ->
  trace (exec env (handleSearch c e) w) =
    prevented e ++
    [Did (SetErrorMsg []); Did (SetAppState FETCHING_WEATHER);
     Called (CallGetCityWeather c);
     Did (SetWeatherData (Some d)); Did (SetAppState GENERATING_IMAGE);
     Called (CallGenerateIsometricCity d);
     Did (SetGeneratedImage u); Did (SetAppState DISPLAY)].
Proof.
  intros Hc Hw Hi. unfold handleSearch.
  destruct e; cbn; rewrite JsFacts.truthy_trim, Hc; cbn; rewrite Hw; cbn;
    rewrite Hi; reflexivity.
Qed.

(** Every failed submission ends in [ERROR] with the classified message;
    the other cells are those of the world it started from, but for the
    record a fulfilled lookup stored. *)
Lemma failed_state (err : JsError) :
  blank c = false -> fails env c err ->
  appState (ui (final (exec env (handleSearch c e) w))) = ERROR
  /\ errorMsg (ui (final (exec env (handleSearch c e) w))) = classified err.
Proof.
  intros Hc Hf. rewrite exec_replay.
  destruct Hf as [Hw|(d & Hw & Hi)].
  - rewrite (exec_handleSearch_lookup_fails err Hc Hw).
    destruct e; split; reflexivity.
  - rewrite (exec_handleSearch_generation_fails d err Hc Hw Hi).
    destruct e; split; reflexivity.
Qed.

End Exec.

(** The three branches of the classification. *)
Lemma classified_missing (err : JsError) :
  message err = Some (lit "MISSING_API_KEY") ->
  classified err = lit "API Key missing! Please check configuration.".
Proof. intros H. unfold classified. now rewrite bool_decide_eq_true_2. Qed.


Lemma classified_raw (err : JsError) :
  message err <> Some (lit "MISSING_API_KEY") ->
  (forall m, message err = Some m ->
     includes m (lit "403") || includes m (lit "Permission Denied") = false) ->
  classified err =
    or_else (message err)
      (lit "Unable to retrieve city data. Please try again.").
Proof.
  intros Hne Hi. unfold classified.
  rewrite bool_decide_eq_false_2 by assumption.
  destruct (message err) as [m|]; [|reflexivity].
  now rewrite (Hi m eq_refl), andb_false_r.
Qed.


End HandlerFacts.

(* ===================================================================== *)
(** ** Facts about the rendered tree *)
(* ===================================================================== *)

Module RenderFacts.

Lemma render_error (s : State) :
  appState s = ERROR ->
  screen (render s) =
    if isDailyLimitError s then TiredMascot handleReset
    else ErrorScreen (errorPanel s).
Proof. intros H. cbn. unfold renderScreen. now rewrite H. Qed.

(** The entry form, the only element wired to [handleSearch], is rendered
    in [IDLE] alone. *)
Lemma form_only_in_idle (s : State) :
  appState s <> IDLE -> dispatch (render s) FormSubmit = None.
Proof.
  intros H. cbn. unfold renderScreen.
  destruct (appState s); try congruence;
    try destruct (isDailyLimitError s); try destruct (weatherData s);
    reflexivity.
Qed.

Lemma dispatch_offered (s : State) (ev : UiEvent) (p : Prog unit) :
  dispatch (render s) ev = Some p -> offered s p.
Proof.
  destruct ev; cbn; unfold when, renderScreen.
  5: { destruct (isModalOpen s) eqn:E, (isDailyLimitError s) eqn:E'; cbn;
       intros [= <-]. now constructor. }
  1-4: case_match; cbn; intros [= <-]; now constructor.
  all: destruct (appState s) eqn:E; try destruct (isDailyLimitError s);
    try destruct (weatherData s) eqn:W; cbn; intros [= <-];
    constructor; eauto.
Qed.

(** Besides the form's submit and the reset buttons, every callback of the
    tree is one that leaves the fetch state machine alone. *)
Lemma dispatch_overlay (s : State) (ev : UiEvent) (p : Prog unit) :
  ev <> FormSubmit -> ev <> ResetClick ->
  dispatch (render s) ev = Some p -> overlay p.
Proof.
  intros Hs Hr. destruct ev; try congruence; cbn; unfold when, renderScreen.
  1-5: case_match; cbn; intros [= <-]; constructor.
  destruct (appState s); try destruct (isDailyLimitError s);
    try destruct (weatherData s); cbn; intros [= <-]; constructor.
Qed.

End RenderFacts.

(* ===================================================================== *)
(** ** Facts about the event loop *)
(* ===================================================================== *)

Module MachineFacts.

Import HandlerFacts RenderFacts.

Lemma coherent_init (P : jsstring -> Prop) (storage : gmap string jsstring) :
  coherent P (init storage).
Proof.
  unfold init, turn, mountEffect, checkStoragePermission. cbn.
  destruct (storage !! USERNAME_KEY) as [n|]; cbn;
    [destruct (truthy n); cbn;
     [destruct (storage !! STORAGE_PERMISSION_KEY) as [p|]; cbn;
      [destruct (truthy p); cbn|]|]|];
    apply coherent_settled; cbn; auto.
Qed.

(** [coherent] only reads the cells of the fetch state machine. *)
Lemma coherent_request (P : jsstring -> Prop) (w w' : World)
    (ts : list (Task unit)) :
  request (ui w') = request (ui w) ->
  coherent P (mkSys w ts) -> coherent P (mkSys w' ts).
Proof.
  unfold request. intros [= H1 H2 H3 H4] Hc.
  inversion Hc; subst.
  - apply coherent_settled. now rewrite H1.
  - eapply coherent_display; rewrite ?H1, ?H2, ?H3; eauto.
  - apply coherent_fetching. now rewrite H1.
  - apply coherent_generating; now rewrite ?H1, ?H2.
Qed.

Lemma turn_overlay (P : jsstring -> Prop) (p : Prog unit) (w : World)
    (ts : list (Task unit)) (s' : Sys) (tr : list Event) :
  overlay p -> turn p w ts = (s', tr) ->
  coherent P (mkSys w ts) -> coherent P s'.
Proof.
  intros Ho Ht Hc. destruct (run_overlay p w Ho) as (w' & tr' & Hr & Hq).
  unfold turn in Ht. rewrite Hr in Ht. cbn in Ht. injection Ht as <- <-.
  rewrite app_nil_r. eapply coherent_request; eauto.
Qed.

(** The tasks in flight, read off [appState]. *)
Lemma coherent_tasks (P : jsstring -> Prop) (s : Sys) :
  coherent P s ->
  match appState (ui (world s)) with
  | IDLE | DISPLAY | ERROR => tasks s = []
  | FETCHING_WEATHER => exists c, tasks s = [WaitWeather c afterWeather]
  | GENERATING_IMAGE =>
      exists d, tasks s = [WaitImage d afterImage]
                /\ weatherData (ui (world s)) = Some d
  end.
Proof.
  intros [w [H|H]|w d H _ _|w c H|w d H Hd]; cbn; rewrite H; eauto.
Qed.

Lemma coherent_step (P : jsstring -> Prop) (l : Label) (s s' : Sys)
    (tr : list Event) :
  delivers P l -> step l s = Some (s', tr) -> coherent P s -> coherent P s'.
Proof.
  intros Hl Hstep Hs. pose proof (coherent_tasks P s Hs) as Ht.
  destruct s as [w ts]. cbn in Ht.
  destruct l as [ev|i r|i r|i]; cbn in Hstep.
  - (* a user event: the callback the rendered tree has for it *)
    destruct (dispatch (render (ui w)) ev) as [p|] eqn:Hd; [|discriminate].
    cbn in Hstep. apply (inj Some) in Hstep.
    apply dispatch_offered in Hd.
    destruct Hd as [name|?|?|?|? ?|v Hi|Hi|Hr];
      try (eapply turn_overlay; [|exact Hstep|exact Hs]; constructor).
    + rewrite Hi in Ht. subst ts. unfold turn in Hstep.
      destruct (blank (cityInput (ui w))) eqn:Hb.
      * rewrite run_handleSearch_blank in Hstep by assumption.
        injection Hstep as <- <-. exact Hs.
      * rewrite run_handleSearch_start in Hstep by assumption.
        injection Hstep as <- <-. now apply coherent_fetching.
    + assert (ts = []) as ->
        by (destruct Hr as [Hr|[Hr _]]; now rewrite Hr in Ht).
      unfold turn in Hstep. rewrite run_handleReset in Hstep.
      injection Hstep as <- <-. apply coherent_settled. now left.
  - (* the lookup settles *)
    destruct (ts !! i) as [[c k|]|] eqn:Hi; try discriminate.
    apply (inj Some) in Hstep.
    destruct (appState (ui w)) eqn:Hst;
      try (subst ts; destruct i; discriminate).
    + destruct Ht as [c' ->]. destruct i as [|i]; [|destruct i; discriminate].
      injection Hi as <- <-. unfold turn in Hstep.
      rewrite run_afterWeather in Hstep. destruct r as [err|d].
      * rewrite run_catch in Hstep. injection Hstep as <- <-.
        apply coherent_settled. now right.
      * injection Hstep as <- <-. now apply coherent_generating.
    + destruct Ht as (d & -> & _). destruct i as [|[|i]]; discriminate.
  - (* the generation settles *)
    destruct (ts !! i) as [[|d k]|] eqn:Hi; try discriminate.
    apply (inj Some) in Hstep.
    destruct (appState (ui w)) eqn:Hst;
      try (subst ts; destruct i; discriminate).
    + destruct Ht as [c' ->]. destruct i as [|[|i]]; discriminate.
    + destruct Ht as (d' & -> & Hw).
      destruct i as [|i]; [|destruct i; discriminate].
      injection Hi as <- <-. unfold turn in Hstep.
      rewrite run_afterImage in Hstep. destruct r as [err|u].
      * rewrite run_catch in Hstep. injection Hstep as <- <-.
        apply coherent_settled. now right.
      * injection Hstep as <- <-. now apply (coherent_display P _ d').
  - (* a timer fires *)
    destruct (timers w !! i) as [[cb ms]|] eqn:Hi; [|discriminate].
    apply (inj Some) in Hstep.
    eapply turn_overlay; [|exact Hstep|]; [constructor|].
    eapply coherent_request; [|exact Hs]. reflexivity.
Qed.

Lemma reachable_coherent (P : jsstring -> Prop) (ok : Label -> Prop) (s : Sys) :
  (forall l, ok l -> delivers P l) -> reachable ok s -> coherent P s.
Proof.
  intros Hok Hr. induction Hr as [storage|s l s' tr _ IH Hl Hs].
  - apply coherent_init.
  - eapply coherent_step; eauto.
Qed.

(** The overlays do not touch the fetch state machine: whatever the tree
    offers besides [handleSearch] and [handleReset] keeps its cells. *)
Lemma overlay_keeps_request (s : State) (p : Prog unit) (w : World) :
  offered s p ->
  p <> handleSearch (cityInput s) (Some formEvent) -> p <> handleReset ->
  request (ui (final (run p w))) = request (ui w)
  /\ result (run p w) = Returned tt.
Proof.
  intros Ho Hs Hr.
  assert (overlay p) as Hov by (destruct Ho; try congruence; constructor).
  destruct (run_overlay p w Hov) as (w' & tr & -> & Hq). now split.
Qed.

(** A submission run by the event loop, its two promises settled as the
    environment says, is the execution [exec] computes. *)
Lemma event_loop_matches_exec (env : Collaborators) (w : World) :
  appState (ui w) = IDLE -> blank (cityInput (ui w)) = false ->
  exists s1 tr1 s2 tr2,
    step (Ui FormSubmit) (mkSys w []) = Some (s1, tr1)
    /\ step (WeatherSettles 0 (weather_of env (cityInput (ui w)))) s1
       = Some (s2, tr2)
    /\ match weather_of env (cityInput (ui w)) with
       | Rejected _ =>
           s2 = mkSys (final (exec env (handleSearch (cityInput (ui w))
                                          (Some formEvent)) w)) []
           /\ tr1 ++ tr2 = trace (exec env (handleSearch (cityInput (ui w))
                                              (Some formEvent)) w)
       | Fulfilled d =>
           exists s3 tr3,
             step (ImageSettles 0 (image_of env d)) s2 = Some (s3, tr3)
             /\ s3 = mkSys (final (exec env (handleSearch (cityInput (ui w))
                                               (Some formEvent)) w)) []
             /\ tr1 ++ tr2 ++ tr3
                = trace (exec env (handleSearch (cityInput (ui w))
                                     (Some formEvent)) w)
       end.
Proof.
  intros Hi Hb. set (c := cityInput (ui w)) in *.
  assert (step (Ui FormSubmit) (mkSys w [])
          = Some (turn (handleSearch c (Some formEvent)) w [])) as Hs1.
  { cbn. unfold renderScreen. now rewrite Hi. }
  unfold turn in Hs1. rewrite run_handleSearch_start in Hs1 by assumption.
  cbn in Hs1. eexists _, _. 
  destruct (weather_of env c) as [err|d] eqn:Hw.
  - eexists _, _. split; [exact Hs1|]. split.
    + cbn. unfold turn. rewrite run_afterWeather, run_catch. reflexivity.
    + rewrite exec_replay, (exec_handleSearch_lookup_fails env c _ w err Hb Hw).
      split; reflexivity.
  - eexists _, _. split; [exact Hs1|]. split.
    + cbn. unfold turn. rewrite run_afterWeather. reflexivity.
    + destruct (image_of env d) as [err|u] eqn:Hg.
      * eexists _, _. split.
        -- cbn. unfold turn. rewrite run_afterImage, run_catch. reflexivity.
        -- rewrite exec_replay,
             (exec_handleSearch_generation_fails env c _ w d err Hb Hw Hg).
           split; reflexivity.
      * eexists _, _. split.
        -- cbn. unfold turn. rewrite run_afterImage. reflexivity.
        -- rewrite exec_replay,
             (exec_handleSearch_succeeds env c _ w d u Hb Hw Hg).
           split; reflexivity.
Qed.

Lemma reachable_walk (ok : Label -> Prop) (ls : list Label) (s s' : Sys) :
  reachable ok s -> Forall ok ls -> walk ls s = Some s' -> reachable ok s'.
Proof.
  intros Hr Hok. revert s Hr.
  induction Hok as [|l ls Hl _ IH]; intros s Hr; cbn.
  - now intros [= <-].
  - destruct (step l s) as [[s1 tr]|] eqn:Hs; [|discriminate].
    apply IH. eapply reachable_step; eauto.
Qed.

(** With nothing in flight and the form not on screen, everything that can
    happen besides a reset keeps the cells of the fetch state machine. *)
Lemma step_keeps_request (l : Label) (w : World) (s' : Sys) (tr : list Event) :
  appState (ui w) <> IDLE -> l <> Ui ResetClick ->
  step l (mkSys w []) = Some (s', tr) ->
  request (ui (world s')) = request (ui w) /\ tasks s' = [].
Proof.
  intros Hi Hl Hs.
  assert (forall p w0, overlay p -> request (ui w0) = request (ui w) ->
            turn p w0 [] = (s', tr) ->
            request (ui (world s')) = request (ui w) /\ tasks s' = []) as Hov.
  { intros p w0 Ho Hq Ht. destruct (run_overlay p w0 Ho) as (w' & tr' & Hr & Hq').
    unfold turn in Ht. rewrite Hr in Ht. injection Ht as <- <-. cbn.
    split; congruence. }
  destruct l as [ev|i r|i r|i]; cbn in Hs; try discriminate.
  - destruct (dispatch (render (ui w)) ev) as [p|] eqn:Hd; [|discriminate].
    cbn in Hs. apply (inj Some) in Hs.
    destruct (decide (ev = FormSubmit)) as [->|Hne].
    + now rewrite form_only_in_idle in Hd.
    + eapply Hov; [| |exact Hs]; [|reflexivity].
      eapply dispatch_overlay; eauto. congruence.
  - destruct (timers w !! i) as [[cb ms]|]; [|discriminate].
    apply (inj Some) in Hs. eapply Hov; [| |exact Hs]; [constructor|reflexivity].
Qed.

End MachineFacts.

(* ===================================================================== *)
(** ** The submission: blank input, reset, sequencing *)
(* ===================================================================== *)

Import HandlerFacts RenderFacts MachineFacts.

(** Decompose the membership [H] of an event in an explicit trace. *)
Ltac in_trace H :=
  repeat first
    [ apply elem_of_nil in H; contradiction
    | apply elem_of_cons in H as [H|H]; [try discriminate|] ].

(** C4. A submit whose city input is empty or made of white space only is a
    no-op: [handleSearch] returns at once, leaving every cell of the world
    as it was and calling no collaborator (its whole trace is the
    [preventDefault] of the event, if one was passed); submitted through
    the form in [IDLE], the system stays exactly as it was, nothing in
    flight added. *)
Theorem blank_submit_is_noop (s : Sys) (e : option FormEvent) :
  blank (cityInput (ui (world s))) = true ->
  run (handleSearch (cityInput (ui (world s))) e) (world s)
  = (world s, prevented e, Returned tt)
  /\ (appState (ui (world s)) = IDLE ->
      step (Ui FormSubmit) s = Some (s, [Did PreventDefault])).
Proof.
  intros Hb. split; [now apply run_handleSearch_blank|].
  intros Hi. destruct s as [w ts]. cbn in *.
  unfold renderScreen. rewrite Hi. cbn. unfold turn.
  rewrite run_handleSearch_blank by assumption. cbn.
  now rewrite app_nil_r.
Qed.

Lemma blank_submit_is_noop_witness :
  blank (cityInput (ui (Samples.typed "  "))) = true
  /\ run (handleSearch (lit "  ") None) (Samples.typed "  ")
     = (Samples.typed "  ", [], Returned tt)
  /\ step (Ui FormSubmit) (mkSys (Samples.typed "  ") [])
     = Some (mkSys (Samples.typed "  ") [], [Did PreventDefault]).
Proof.
  pose proof (blank_submit_is_noop (mkSys (Samples.typed "  ") []) None
                eq_refl) as [H1 H2].
  split; [reflexivity|]. split; [exact H1|exact (H2 eq_refl)].
Defined.

(** C5. In whatever state [handleReset] is invoked, it returns with
    [appState] at [IDLE], the city input cleared, the weather record
    cleared and the image reference cleared; it calls no collaborator. *)
Theorem handleReset_returns_to_idle (w : World) :
  result (run handleReset w) = Returned tt
  /\ appState (ui (final (run handleReset w))) = IDLE
  /\ cityInput (ui (final (run handleReset w))) = []
  /\ weatherData (ui (final (run handleReset w))) = None
  /\ generatedImage (ui (final (run handleReset w))) = []
  /\ calls (trace (run handleReset w)) = [].
Proof. rewrite run_handleReset. repeat split. Qed.

(** C8. In every execution of [handleSearch], generation is called only
    after a fulfilled lookup, with the record the lookup returned.  A
    rejected lookup leads to [ERROR] with the lookup as the only call;
    when both calls are fulfilled, [appState] takes the values
    [FETCHING_WEATHER], [GENERATING_IMAGE], [DISPLAY] in that order, the
    lookup called in the first and the generation in the second. *)
Theorem generation_only_after_lookup
    (env : Collaborators) (c : jsstring) (e : option FormEvent) (w : World) :
  (forall d,
     Called (CallGenerateIsometricCity d)
       ∈ trace (exec env (handleSearch c e) w) ->
     blank c = false /\ weather_of env c = Fulfilled d)
  /\ (forall err,
        blank c = false -> weather_of env c = Rejected err ->
        trace (exec env (handleSearch c e) w)
        = prevented e ++
          [Did (SetErrorMsg []); Did (SetAppState FETCHING_WEATHER);
           Called (CallGetCityWeather c);
           Did (ConsoleError err); Did (SetErrorMsg (classified err));
           Did (SetAppState ERROR)]
        /\ calls (trace (exec env (handleSearch c e) w))
           = [CallGetCityWeather c]
        /\ appState (ui (final (exec env (handleSearch c e) w))) = ERROR)
  /\ (forall d u,
        blank c = false -> weather_of env c = Fulfilled d ->
        image_of env d = Fulfilled u ->
        trace (exec env (handleSearch c e) w)
        = prevented e ++
          [Did (SetErrorMsg []); Did (SetAppState FETCHING_WEATHER);
           Called (CallGetCityWeather c);
           Did (SetWeatherData (Some d)); Did (SetAppState GENERATING_IMAGE);
           Called (CallGenerateIsometricCity d);
           Did (SetGeneratedImage u); Did (SetAppState DISPLAY)]
        /\ appStates (trace (exec env (handleSearch c e) w))
           = [FETCHING_WEATHER; GENERATING_IMAGE; DISPLAY]
        /\ appState (ui (final (exec env (handleSearch c e) w))) = DISPLAY).
Proof.
  split; [|split].
  - intros d Hin. destruct (blank c) eqn:Hb.
    { rewrite exec_handleSearch_blank in Hin by assumption.
      destruct e; cbn in Hin; in_trace Hin. }
    split; [reflexivity|].
    destruct (weather_of env c) as [err|d'] eqn:Hw.
    { rewrite (exec_handleSearch_lookup_fails env c e w err Hb Hw) in Hin.
      destruct e; cbn in Hin; in_trace Hin. }
    destruct (image_of env d') as [err|u] eqn:Hg.
    + rewrite (exec_handleSearch_generation_fails env c e w d' err Hb Hw Hg)
        in Hin.
      destruct e; cbn in Hin; in_trace Hin; congruence.
    + rewrite (exec_handleSearch_succeeds env c e w d' u Hb Hw Hg) in Hin.
      destruct e; cbn in Hin; in_trace Hin; congruence.
  - intros err Hb Hw. rewrite exec_replay.
    rewrite (exec_handleSearch_lookup_fails env c e w err Hb Hw).
    destruct e; repeat split.
  - intros d u Hb Hw Hg. rewrite exec_replay.
    rewrite (exec_handleSearch_succeeds env c e w d u Hb Hw Hg).
    destruct e; repeat split.
Qed.

Lemma generation_only_after_lookup_witness :
  blank (lit "Kyoto") = false
  /\ calls (trace (exec (Samples.answers
                           (Rejected (Samples.failing "Failed to fetch"))
                           (Fulfilled Samples.picture))
                     (handleSearch (lit "Kyoto") None)
                     (Samples.typed "Kyoto")))
     = [CallGetCityWeather (lit "Kyoto")]
  /\ appStates (trace (exec (Samples.answers (Fulfilled Samples.kyoto)
                                             (Fulfilled Samples.picture))
                         (handleSearch (lit "Kyoto") None)
                         (Samples.typed "Kyoto")))
     = [FETCHING_WEATHER; GENERATING_IMAGE; DISPLAY].
Proof.
  split; [reflexivity|]. split.
  - apply (proj1 (proj2 (generation_only_after_lookup
                           (Samples.answers
                              (Rejected (Samples.failing "Failed to fetch"))
                              (Fulfilled Samples.picture))
                           (lit "Kyoto") None (Samples.typed "Kyoto")))
             (Samples.failing "Failed to fetch") eq_refl eq_refl).
  - apply (proj2 (proj2 (generation_only_after_lookup
                           (Samples.answers (Fulfilled Samples.kyoto)
                                            (Fulfilled Samples.picture))
                           (lit "Kyoto") None (Samples.typed "Kyoto")))
             Samples.kyoto Samples.picture eq_refl eq_refl eq_refl).
Defined.

(** C9. When the lookup is fulfilled and the generation is rejected, the
    state is [ERROR] and the record the lookup returned is still stored.
    From there nothing that can happen but a click on reset changes the
    stored record, and that click clears it. *)
Theorem generation_failure_keeps_record
    (env : Collaborators) (c : jsstring) (e : option FormEvent) (w : World)
    (d : WeatherData) (err : JsError) :
  blank c = false -> weather_of env c = Fulfilled d ->
  image_of env d = Rejected err ->
  appState (ui (final (exec env (handleSearch c e) w))) = ERROR
  /\ weatherData (ui (final (exec env (handleSearch c e) w))) = Some d
  /\ (forall l s' tr,
        l <> Ui ResetClick ->
        step l (mkSys (final (exec env (handleSearch c e) w)) [])
        = Some (s', tr) ->
        appState (ui (world s')) = ERROR
        /\ weatherData (ui (world s')) = Some d)
  /\ (exists s' tr,
        step (Ui ResetClick) (mkSys (final (exec env (handleSearch c e) w)) [])
        = Some (s', tr)
        /\ weatherData (ui (world s')) = None).
Proof.
  intros Hb Hw Hg.
  assert (appState (ui (final (exec env (handleSearch c e) w))) = ERROR
          /\ weatherData (ui (final (exec env (handleSearch c e) w))) = Some d)
    as [Hst Hd].
  { rewrite exec_replay,
      (exec_handleSearch_generation_fails env c e w d err Hb Hw Hg).
    destruct e; split; reflexivity. }
  split; [exact Hst|]. split; [exact Hd|]. split.
  - intros l s' tr Hl Hs.
    apply step_keeps_request in Hs as [Hq _]; [|congruence|exact Hl].
    unfold request in Hq. injection Hq as -> -> _ _. now split.
  - unfold step, dispatch. cbn [world]. rewrite render_error by assumption.
    destruct (isDailyLimitError _); eexists _, _; split; reflexivity.
Qed.

Lemma generation_failure_keeps_record_witness :
  blank (lit "Kyoto") = false
  /\ weatherData
       (ui (final (exec (Samples.answers
                           (Fulfilled Samples.kyoto)
                           (Rejected (Samples.failing "No image generated")))
                     (handleSearch (lit "Kyoto") None)
                     (Samples.typed "Kyoto"))))
     = Some Samples.kyoto.
Proof.
  split; [reflexivity|].
  apply (generation_failure_keeps_record
           (Samples.answers (Fulfilled Samples.kyoto)
              (Rejected (Samples.failing "No image generated")))
           (lit "Kyoto") None (Samples.typed "Kyoto") Samples.kyoto
           (Samples.failing "No image generated") eq_refl eq_refl eq_refl).
Defined.

(* ===================================================================== *)
(** ** Classification of failures and the screen it selects *)
(* ===================================================================== *)

(** The literals of the classification do not contain one another. *)
Lemma markers_apart :
  includes (lit "MISSING_API_KEY") (lit "Daily free limit reached") = false
  /\ includes (lit "MISSING_API_KEY") (lit "Too many requests") = false
  /\ includes (lit "MISSING_API_KEY") (lit "403") = false
  /\ includes (lit "MISSING_API_KEY") (lit "Permission Denied") = false
  /\ includes (lit "Access Denied. Please check API Key.")
       (lit "Daily free limit reached") = false
  /\ includes (lit "Access Denied. Please check API Key.")
       (lit "Too many requests") = false
  /\ includes (lit "API Key missing! Please check configuration.")
       (lit "Daily free limit reached") = false.
Proof. vm_compute. repeat split. Qed.

Section Failure.

Context (env : Collaborators) (c : jsstring) (e : option FormEvent) (w : World).

(** The cells after the submission of [c] from [w]. *)
Local Abbreviation after := (ui (final (exec env (handleSearch c e) w))).

(** C2.  When the lookup fails with a message that contains
    "Daily free limit reached" and contains neither "403" nor "Permission
    Denied", the state is [ERROR], the stored message is the raw one, and
    the tree shows the quota-exhausted screen ([TiredMascot]) in place of
    the generic error panel, without user menu and without the banner. *)
Theorem daily_limit_routes_to_tired_screen (err : JsError) (m : jsstring) :
  blank c = false -> weather_of env c = Rejected err ->
  message err = Some m ->
  includes m (lit "Daily free limit reached") = true ->
  includes m (lit "403") = false ->
  includes m (lit "Permission Denied") = false ->
  appState after = ERROR
  /\ errorMsg after = m
  /\ screen (render after) = TiredMascot handleReset
  /\ userMenu (render after) = None
  /\ adBanner (render after) = None.
Proof.
  intros Hb Hw Hm Hd H403 Hpd.
  destruct (failed_state env c e w err Hb (or_introl Hw)) as [Hst Hmsg].
  assert (errorMsg after = m) as Hraw.
  { rewrite Hmsg, classified_raw, Hm; cbn.
    - now rewrite (JsFacts.includes_nonempty _ _ Hd eq_refl).
    - rewrite Hm. intros [= ->]. pose proof markers_apart. intuition congruence.
    - rewrite Hm. intros ? [= <-]. now rewrite H403, Hpd. }
  assert (isDailyLimitError after = true) as Hlimit
    by (unfold isDailyLimitError; now rewrite Hraw).
  split; [exact Hst|]. split; [exact Hraw|].
  rewrite render_error by assumption. cbn [userMenu adBanner render].
  rewrite Hlimit, andb_false_r. repeat split.
Qed.

(** C3.  A failure of either call whose message is exactly
    "MISSING_API_KEY" is reported with the fixed configuration message,
    in state [ERROR]. *)
Theorem missing_api_key_exact_match (err : JsError) :
  blank c = false -> fails env c err ->
  message err = Some (lit "MISSING_API_KEY") ->
  appState after = ERROR
  /\ errorMsg after = lit "API Key missing! Please check configuration.".
Proof.
  intros Hb Hf Hm.
  destruct (failed_state env c e w err Hb Hf) as [Hst Hmsg].
  split; [exact Hst|]. now rewrite Hmsg, classified_missing.
Qed.

(** C7.  When the lookup fails with a message that contains
    "Too many requests" and none of "403", "Permission Denied" and "Daily
    free limit reached", the tree shows the generic error panel (not the
    quota-exhausted screen) in its rate-limit variant: amber classes, the
    hourglass, "Too Fast!", the raw message, and the button "Wait a
    moment". *)
Theorem rate_limit_styles_error_panel (err : JsError) (m : jsstring) :
  blank c = false -> weather_of env c = Rejected err ->
  message err = Some m ->
  includes m (lit "Too many requests") = true ->
  includes m (lit "403") = false ->
  includes m (lit "Permission Denied") = false ->
  includes m (lit "Daily free limit reached") = false ->
  appState after = ERROR
  /\ screen (render after)
     = ErrorScreen
         {| panelBackground := "bg-amber-50";
            panelIcon := Hourglass;
            panelTitle := "Too Fast!";
            panelTitleClass := "text-amber-800";
            panelTextClass := "text-amber-700";
            panelMessage := m;
            panelButtonClass := "bg-amber-200 text-amber-900 hover:bg-amber-300";
            panelButtonLabel := "Wait a moment";
            panelOnClick := handleReset |}.
Proof.
  intros Hb Hw Hm Hr H403 Hpd Hd.
  destruct (failed_state env c e w err Hb (or_introl Hw)) as [Hst Hmsg].
  assert (errorMsg after = m) as Hraw.
  { rewrite Hmsg, classified_raw, Hm; cbn.
    - now rewrite (JsFacts.includes_nonempty _ _ Hr eq_refl).
    - rewrite Hm. intros [= ->]. pose proof markers_apart. intuition congruence.
    - rewrite Hm. intros ? [= <-]. now rewrite H403, Hpd. }
  split; [exact Hst|].
  rewrite render_error by assumption.
  unfold isDailyLimitError, errorPanel, isRpmError. now rewrite Hraw, Hd, Hr.
Qed.


End Failure.

Lemma daily_limit_routes_to_tired_screen_witness :
  blank (lit "Kyoto") = false
  /\ includes (lit "Daily free limit reached. Come back tomorrow.")
       (lit "Daily free limit reached") = true
  /\ screen (render (ui (final (exec
       (Samples.answers
          (Rejected (Samples.failing
                       "Daily free limit reached. Come back tomorrow."))
          (Fulfilled Samples.picture))
       (handleSearch (lit "Kyoto") None) (Samples.typed "Kyoto")))))
     = TiredMascot handleReset.
Proof.
  split; [reflexivity|]. split; [reflexivity|].
  apply (daily_limit_routes_to_tired_screen
           (Samples.answers
              (Rejected (Samples.failing
                           "Daily free limit reached. Come back tomorrow."))
              (Fulfilled Samples.picture))
           (lit "Kyoto") None (Samples.typed "Kyoto")
           (Samples.failing "Daily free limit reached. Come back tomorrow.")
           (lit "Daily free limit reached. Come back tomorrow.")
           eq_refl eq_refl eq_refl eq_refl eq_refl eq_refl).
Defined.

(** C2, the excluded case: a lookup failure whose message contains both
    "403" and "Daily free limit reached" is given the access-denied text and
    shows the generic error panel, not the quota-exhausted screen. *)
Lemma daily_limit_with_403_shows_error_panel :
  includes (lit "403: Daily free limit reached")
    (lit "Daily free limit reached") = true
  /\ errorMsg (ui (final (exec
       (Samples.answers
          (Rejected (Samples.failing "403: Daily free limit reached"))
          (Fulfilled Samples.picture))
       (handleSearch (lit "Kyoto") None) (Samples.typed "Kyoto"))))
     = lit "Access Denied. Please check API Key."
  /\ screen (render (ui (final (exec
       (Samples.answers
          (Rejected (Samples.failing "403: Daily free limit reached"))
          (Fulfilled Samples.picture))
       (handleSearch (lit "Kyoto") None) (Samples.typed "Kyoto")))))
     <> TiredMascot handleReset.
Proof. vm_compute. repeat split. discriminate. Qed.

Lemma missing_api_key_exact_match_witness :
  blank (lit "Kyoto") = false
  /\ errorMsg (ui (final (exec
       (Samples.answers (Rejected (Samples.failing "MISSING_API_KEY"))
                        (Fulfilled Samples.picture))
       (handleSearch (lit "Kyoto") None) (Samples.typed "Kyoto"))))
     = lit "API Key missing! Please check configuration.".
Proof.
  split; [reflexivity|].
  apply (missing_api_key_exact_match
           (Samples.answers (Rejected (Samples.failing "MISSING_API_KEY"))
                            (Fulfilled Samples.picture))
           (lit "Kyoto") None (Samples.typed "Kyoto")
           (Samples.failing "MISSING_API_KEY")
           eq_refl (or_introl eq_refl) eq_refl).
Defined.

(** C3, the excluded case: the marker is compared with [===], not
    searched for; a message that contains "MISSING_API_KEY" without being equal to
    it is kept as it is. *)
Lemma missing_api_key_inside_message_is_kept :
  includes (lit "Error: MISSING_API_KEY") (lit "MISSING_API_KEY") = true
  /\ appState (ui (final (exec
       (Samples.answers (Rejected (Samples.failing "Error: MISSING_API_KEY"))
                        (Fulfilled Samples.picture))
       (handleSearch (lit "Kyoto") None) (Samples.typed "Kyoto"))))
     = ERROR
  /\ errorMsg (ui (final (exec
       (Samples.answers (Rejected (Samples.failing "Error: MISSING_API_KEY"))
                        (Fulfilled Samples.picture))
       (handleSearch (lit "Kyoto") None) (Samples.typed "Kyoto"))))
     = lit "Error: MISSING_API_KEY"
  /\ lit "Error: MISSING_API_KEY"
     <> lit "API Key missing! Please check configuration.".
Proof. vm_compute. repeat split. discriminate. Qed.

Lemma rate_limit_styles_error_panel_witness :
  blank (lit "Kyoto") = false
  /\ includes (lit "Too many requests. Slow down.") (lit "Too many requests")
     = true
  /\ screen (render (ui (final (exec
       (Samples.answers
          (Rejected (Samples.failing "Too many requests. Slow down."))
          (Fulfilled Samples.picture))
       (handleSearch (lit "Kyoto") None) (Samples.typed "Kyoto")))))
     = ErrorScreen
         {| panelBackground := "bg-amber-50";
            panelIcon := Hourglass;
            panelTitle := "Too Fast!";
            panelTitleClass := "text-amber-800";
            panelTextClass := "text-amber-700";
            panelMessage := lit "Too many requests. Slow down.";
            panelButtonClass := "bg-amber-200 text-amber-900 hover:bg-amber-300";
            panelButtonLabel := "Wait a moment";
            panelOnClick := handleReset |}.
Proof.
  split; [reflexivity|]. split; [reflexivity|].
  apply (rate_limit_styles_error_panel
           (Samples.answers
              (Rejected (Samples.failing "Too many requests. Slow down."))
              (Fulfilled Samples.picture))
           (lit "Kyoto") None (Samples.typed "Kyoto")
           (Samples.failing "Too many requests. Slow down.")
           (lit "Too many requests. Slow down.")
           eq_refl eq_refl eq_refl eq_refl eq_refl eq_refl eq_refl).
Defined.

(** C7, the excluded case: a lookup failure whose message contains both
    "403" and "Too many requests" is given the access-denied text, and the
    generic error panel shows in its default variant. *)
Lemma rate_limit_with_403_shows_default_panel :
  includes (lit "403 Too many requests") (lit "Too many requests") = true
  /\ screen (render (ui (final (exec
       (Samples.answers (Rejected (Samples.failing "403 Too many requests"))
                        (Fulfilled Samples.picture))
       (handleSearch (lit "Kyoto") None) (Samples.typed "Kyoto")))))
     = ErrorScreen
         {| panelBackground := "bg-red-50";
            panelIcon := ThunderCloud;
            panelTitle := "Oops!";
            panelTitleClass := "text-red-800";
            panelTextClass := "text-red-600";
            panelMessage := lit "Access Denied. Please check API Key.";
            panelButtonClass := "bg-red-100 text-red-800 hover:bg-red-200";
            panelButtonLabel := "Try Again";
            panelOnClick := handleReset |}.
Proof. vm_compute. split; reflexivity. Qed.


(* ===================================================================== *)
(** ** The event loop: one submission at a time, and [DISPLAY] *)
(* ===================================================================== *)

(** Where the guard lives: [handleSearch] does not read [appState]; run
    on the world a visit ends in ([DISPLAY], the city still in the input)
    it would move to [FETCHING_WEATHER] and call the lookup.  The rendered
    tree never makes that call: the form is its only caller, and the form
    is rendered in [IDLE] alone, which is what the theorem below is
    about. *)
Lemma handleSearch_runs_outside_idle :
  appState (ui (world Samples.visited)) = DISPLAY
  /\ appState (ui (final (run
       (handleSearch (cityInput (ui (world Samples.visited))) (Some formEvent))
       (world Samples.visited))))
     = FETCHING_WEATHER
  /\ calls (trace (run
       (handleSearch (cityInput (ui (world Samples.visited))) (Some formEvent))
       (world Samples.visited)))
     = [CallGetCityWeather (lit "Kyoto")].
Proof. vm_compute. repeat split. Qed.

(** C1.  The entry form, the only element that calls
    [handleSearch], is rendered in [IDLE] alone: in any other state a submit
    event has no element to receive it and changes nothing (no cell, no
    task, no call).  In every state the event loop reaches, at most one
    submission is in flight, and none outside [FETCHING_WEATHER] and
    [GENERATING_IMAGE]. *)
Theorem submit_has_no_target_outside_idle :
  (forall s : Sys,
     appState (ui (world s)) <> IDLE ->
     step (Ui FormSubmit) s = None /\ react (Ui FormSubmit) s = (s, []))
  /\ (forall s : Sys,
        reachable any_label s ->
        length (tasks s) <= 1
        /\ (tasks s <> [] ->
            appState (ui (world s)) = FETCHING_WEATHER
            \/ appState (ui (world s)) = GENERATING_IMAGE)).
Proof.
  split.
  - intros s Hi.
    assert (step (Ui FormSubmit) s = None) as Hs
      by (unfold step; now rewrite form_only_in_idle).
    split; [exact Hs|]. unfold react. now rewrite Hs.
  - intros s Hr.
    apply (reachable_coherent (fun _ => True)) in Hr;
      [|intros l _; destruct l as [| |i [|u]|]; exact I].
    apply coherent_tasks in Hr.
    destruct (appState (ui (world s)));
      [rewrite Hr; cbn; split; [lia|congruence]
      |destruct Hr as [c ->]; cbn; split; [lia|auto]
      |destruct Hr as (d & -> & _); cbn; split; [lia|auto]
      |rewrite Hr; cbn; split; [lia|congruence]..].
Qed.

Lemma submit_has_no_target_outside_idle_witness :
  appState (ui (world Samples.visited)) <> IDLE
  /\ react (Ui FormSubmit) Samples.visited = (Samples.visited, [])
  /\ reachable any_label Samples.visited
  /\ length (tasks Samples.visited) <= 1.
Proof.
  assert (reachable any_label Samples.visited) as Hr.
  { apply (reachable_walk any_label Samples.visit (init ∅)).
    - apply reachable_init.
    - repeat constructor.
    - reflexivity. }
  split; [discriminate|]. split; [|split; [exact Hr|]].
  - apply (proj1 submit_has_no_target_outside_idle Samples.visited).
    discriminate.
  - apply (proj2 submit_has_no_target_outside_idle Samples.visited Hr).
Defined.

(** C6.  In every state the event loop reaches while generations are
    fulfilled with image references (non-empty strings), [DISPLAY] comes
    with a stored record and a non-empty image reference, and the tree
    shows the weather screen built from both.  A submission whose lookup
    and generation are both fulfilled ends in [DISPLAY] with the record
    and the image reference they returned. *)
Theorem display_has_record_and_image :
  (forall s : Sys,
     reachable collaborator_contract s ->
     appState (ui (world s)) = DISPLAY ->
     exists d,
       weatherData (ui (world s)) = Some d
       /\ generatedImage (ui (world s)) <> []
       /\ screen (render (ui (world s)))
          = WeatherScreen (generatedImage (ui (world s))) d
              (username (ui (world s))) (isDarkBg (ui (world s)))
              handleReset)
  /\ (forall (env : Collaborators) (c : jsstring) (e : option FormEvent)
        (w : World) (d : WeatherData) (u : jsstring),
        blank c = false -> weather_of env c = Fulfilled d ->
        image_of env d = Fulfilled u ->
        appState (ui (final (exec env (handleSearch c e) w))) = DISPLAY
        /\ weatherData (ui (final (exec env (handleSearch c e) w))) = Some d
        /\ generatedImage (ui (final (exec env (handleSearch c e) w))) = u).
Proof.
  split.
  - intros s Hr Hd.
    apply (reachable_coherent image_reference) in Hr; [|auto].
    destruct Hr as [w [H|H]|w d H Hw Hu|w c H|w d H Hw]; cbn in *;
      try congruence.
    exists d. split; [exact Hw|]. split; [exact Hu|].
    unfold renderScreen. now rewrite H, Hw.
  - intros env c e w d u Hb Hw Hg.
    rewrite exec_replay, (exec_handleSearch_succeeds env c e w d u Hb Hw Hg).
    destruct e; repeat split.
Qed.

Lemma display_has_record_and_image_witness :
  reachable collaborator_contract Samples.visited
  /\ appState (ui (world Samples.visited)) = DISPLAY
  /\ (exists d,
        weatherData (ui (world Samples.visited)) = Some d
        /\ generatedImage (ui (world Samples.visited)) <> []
        /\ screen (render (ui (world Samples.visited)))
           = WeatherScreen (generatedImage (ui (world Samples.visited))) d
               (username (ui (world Samples.visited)))
               (isDarkBg (ui (world Samples.visited)))
               handleReset)
  /\ blank (lit "Kyoto") = false
  /\ generatedImage
       (ui (final (exec (Samples.answers (Fulfilled Samples.kyoto)
                                         (Fulfilled Samples.picture))
                     (handleSearch (lit "Kyoto") None)
                     (Samples.typed "Kyoto"))))
     = Samples.picture.
Proof.
  assert (reachable collaborator_contract Samples.visited) as Hr.
  { apply (reachable_walk collaborator_contract Samples.visit (init ∅)).
    - apply reachable_init.
    - repeat constructor. discriminate.
    - reflexivity. }
  split; [exact Hr|]. split; [reflexivity|]. split; [|split; [reflexivity|]].
  - apply (proj1 display_has_record_and_image Samples.visited Hr eq_refl).
  - apply (proj2 display_has_record_and_image
             (Samples.answers (Fulfilled Samples.kyoto)
                              (Fulfilled Samples.picture))
             (lit "Kyoto") None (Samples.typed "Kyoto")
             Samples.kyoto Samples.picture eq_refl eq_refl eq_refl).
Defined.

(** The record half of the invariant needs nothing from the environment. *)
Lemma display_has_record (s : Sys) :
  reachable any_label s -> appState (ui (world s)) = DISPLAY ->
  is_Some (weatherData (ui (world s))).
Proof.
  intros Hr Hd.
  apply (reachable_coherent (fun _ => True)) in Hr;
    [|intros l _; destruct l as [| |i [|u]|]; exact I].
  destruct Hr as [w [H|H]|w d H Hw _|w c H|w d H Hw]; cbn in *;
    try congruence.
  now exists d.
Qed.

(** The image half restates what the generation was fulfilled with: [App]
    stores the string as it comes, so an environment fulfilling with the
    empty string leads to [DISPLAY] with an empty reference. *)
Lemma display_image_is_the_fulfilled_value :
  exists s,
    walk [Ui (InputChange (lit "Kyoto")); Ui FormSubmit;
          WeatherSettles 0 (Fulfilled Samples.kyoto);
          ImageSettles 0 (Fulfilled [])] (init ∅) = Some s
    /\ appState (ui (world s)) = DISPLAY
    /\ generatedImage (ui (world s)) = [].
Proof. eexists. split; [reflexivity|]. split; reflexivity. Qed.

(* ===================================================================== *)
(** ** Facts about the diagram *)
(* ===================================================================== *)

Module DiagramFacts.

(** Every message the [catch] clause stores is non-empty. *)
Lemma truthy_classified (err : JsError) : truthy (classified err) = true.
Proof.
  unfold classified. destruct (bool_decide _); [reflexivity|].
  destruct (match message err with Some _ => _ | None => _ end);
    [reflexivity|].
  destruct (message err) as [m|]; [|reflexivity].
  cbn. destruct (truthy m) eqn:E; [exact E|reflexivity].
Qed.

Lemma classified_nonempty (err : JsError) : classified err <> [].
Proof.
  intros H. pose proof (truthy_classified err) as T. now rewrite H in T.
Qed.

(** What an overlay program does: it returns, calls no collaborator, keeps
    the cells of the fetch state machine, and does not bring onboarding
    back. *)
Lemma run_overlay_frame (p : Prog unit) (w : World) :
  overlay p ->
  result (run p w) = Returned tt
  /\ calls (trace (run p w)) = []
  /\ request (ui (final (run p w))) = request (ui w)
  /\ (showOnboarding (ui (final (run p w))) = true ->
      showOnboarding (ui w) = true).
Proof.
  intros [name|allowed| | |v|[]]; repeat split; try reflexivity;
    unfold handleSaveName, handleStorageDecision, handleClosePrivacy,
      handleOpenPrivacy; cbn; congruence.
Qed.

(** From a coherent state every step is a move of the diagram. *)
Lemma step_transition (P : jsstring -> Prop) (l : Label) (s s' : Sys)
    (tr : list Event) :
  coherent P s -> step l s = Some (s', tr) ->
  transition (world s) (world s').
Proof.
  intros Hs Hstep. pose proof (coherent_tasks P s Hs) as Ht.
  destruct s as [w ts]. cbn in Ht. cbn [world].
  destruct l as [ev|i r|i r|i]; cbn in Hstep.
  - destruct (dispatch (render (ui w)) ev) as [p|] eqn:Hd; [|discriminate].
    cbn in Hstep. apply (inj Some) in Hstep.
    apply dispatch_offered in Hd. unfold turn in Hstep.
    injection Hstep as <- <-. cbn [world].
    destruct Hd as [name|?|?|?|? ?|v Hi|Hi|Hr];
      try (apply transition_overlay; constructor).
    + destruct (blank (cityInput (ui w))) eqn:Hb.
      * rewrite run_handleSearch_blank by assumption.
        now apply transition_blank.
      * rewrite run_handleSearch_start by assumption.
        now apply transition_submit.
    + rewrite run_handleReset. apply transition_reset. tauto.
  - destruct (ts !! i) as [[c k|]|] eqn:Hi; try discriminate.
    apply (inj Some) in Hstep. unfold turn in Hstep. injection Hstep as <- <-.
    cbn [world].
    destruct (appState (ui w)) eqn:Hst;
      try (subst ts; destruct i; discriminate).
    + destruct Ht as [c' ->]. destruct i as [|i]; [|destruct i; discriminate].
      injection Hi as <- <-. rewrite run_afterWeather. destruct r as [err|d].
      * rewrite run_catch. apply transition_failed. now left.
      * now apply transition_fetched.
    + destruct Ht as (d & -> & _). destruct i as [|[|i]]; discriminate.
  - destruct (ts !! i) as [[|d k]|] eqn:Hi; try discriminate.
    apply (inj Some) in Hstep. unfold turn in Hstep. injection Hstep as <- <-.
    cbn [world].
    destruct (appState (ui w)) eqn:Hst;
      try (subst ts; destruct i; discriminate).
    + destruct Ht as [c' ->]. destruct i as [|[|i]]; discriminate.
    + destruct Ht as (d' & -> & Hw).
      destruct i as [|i]; [|destruct i; discriminate].
      injection Hi as <- <-. rewrite run_afterImage. destruct r as [err|u].
      * rewrite run_catch. apply transition_failed. now right.
      * now apply transition_painted.
  - destruct (timers w !! i) as [[cb ms]|] eqn:Hi; [|discriminate].
    apply (inj Some) in Hstep. unfold turn in Hstep. injection Hstep as <- <-.
    cbn [world]. eapply transition_timer; eauto.
Qed.

Lemma transition_edge (w w' : World) :
  transition w w' -> edge (appState (ui w)) (appState (ui w')) = true.
Proof.
  intros [p Ho|i cb ms Hi|Hi ?|Hi ?|Hi|err Hi|d Hi|u Hi].
  - destruct (run_overlay_frame p w Ho) as (_ & _ & Hq & _).
    injection Hq as -> _ _ _. now destruct (appState (ui w)).
  - destruct cb. cbn. now destruct (appState (ui w)).
  - now rewrite Hi.
  - cbn. now rewrite Hi.
  - cbn. now destruct Hi as [-> | ->].
  - cbn. now destruct Hi as [-> | ->].
  - cbn. now rewrite Hi.
  - cbn. now rewrite Hi.
Qed.

Lemma tidy_request (s s' : State) :
  request s' = request s -> tidy s -> tidy s'.
Proof. unfold request, tidy. now intros [= -> -> -> ->]. Qed.

Lemma transition_tidy (w w' : World) :
  transition w w' -> tidy (ui w) -> tidy (ui w').
Proof.
  intros [p Ho|i cb ms Hi|Hi ?|Hi ?|Hi|err Hi|d Hi|u Hi] Ht.
  - eapply tidy_request; [|exact Ht]. now apply run_overlay_frame.
  - eapply tidy_request; [|exact Ht]. now destruct cb.
  - exact Ht.
  - unfold tidy in *. rewrite Hi in Ht. cbn. tauto.
  - unfold tidy. cbn. tauto.
  - unfold tidy in *. cbn. split; [|apply classified_nonempty].
    destruct Hi as [Hi|Hi]; rewrite Hi in Ht; tauto.
  - unfold tidy in *. rewrite Hi in Ht. cbn. tauto.
  - unfold tidy in *. rewrite Hi in Ht. cbn. tauto.
Qed.

Lemma transition_onboarding (w w' : World) :
  transition w w' ->
  showOnboarding (ui w') = true -> showOnboarding (ui w) = true.
Proof.
  intros [p Ho|i cb ms Hi|Hi ?|Hi ?|Hi|err Hi|d Hi|u Hi]; try (cbn; tauto).
  - now apply run_overlay_frame.
  - now destruct cb.
Qed.

(** The world right after mounting. *)
Lemma world_init (storage : gmap string jsstring) :
  world (init storage)
  = {| ui :=
         {| cityInput := []; appState := IDLE; weatherData := None;
            generatedImage := []; errorMsg := [];
            username :=
              if truthy_opt (storage !! USERNAME_KEY)
              then default [] (storage !! USERNAME_KEY) else [];
            showOnboarding := negb (truthy_opt (storage !! USERNAME_KEY));
            showStoragePermission :=
              truthy_opt (storage !! USERNAME_KEY)
              && negb (truthy_opt (storage !! STORAGE_PERMISSION_KEY));
            showPrivacy := false |};
       localStorage := storage;
       timers := [] |}
  /\ tasks (init storage) = [].
Proof.
  unfold init, turn, mountEffect, checkStoragePermission. cbn.
  destruct (storage !! USERNAME_KEY) as [n|]; cbn;
    [destruct (truthy n); cbn;
     [destruct (storage !! STORAGE_PERMISSION_KEY) as [p|]; cbn;
      [destruct (truthy p); cbn|]|]|];
    split; reflexivity.
Qed.

Lemma reachable_any_coherent (s : Sys) :
  reachable any_label s -> coherent (fun _ => True) s.
Proof.
  apply reachable_coherent. intros l _. destruct l as [| |i [|u]|]; exact I.
Qed.

Lemma reachable_tidy (s : Sys) :
  reachable any_label s -> tidy (ui (world s)).
Proof.
  intros Hr.
  assert (coherent (fun _ => True) s /\ tidy (ui (world s))) as [_ H];
    [|exact H].
  induction Hr as [storage|s l s' tr _ [Hc Ht] Hl Hs].
  - split; [apply coherent_init|].
    rewrite (proj1 (world_init storage)). split; reflexivity.
  - split.
    + eapply coherent_step; [|exact Hs|exact Hc].
      destruct l as [| |i [|u]|]; exact I.
    + eapply transition_tidy; [|exact Ht]. eapply step_transition; eauto.
Qed.

Lemma keys_differ : USERNAME_KEY <> STORAGE_PERMISSION_KEY.
Proof. discriminate. Qed.

(** The sample states are reached by the event loop. *)
Lemma visited_reachable : reachable any_label Samples.visited.
Proof.
  apply (reachable_walk any_label Samples.visit (init ∅));
    [apply reachable_init|repeat constructor|reflexivity].
Qed.

Lemma painting_reachable : reachable any_label Tour.painting.
Proof.
  apply (reachable_walk any_label Tour.to_painting (init ∅));
    [apply reachable_init|repeat constructor|reflexivity].
Qed.

Lemma refused_reachable : reachable any_label Tour.refused.
Proof.
  apply (reachable_walk any_label Tour.to_refused (init ∅));
    [apply reachable_init|repeat constructor|reflexivity].
Qed.

(** A session with onboarding and the storage prompt hidden and no timer
    pending stays so: the prompt is set only by the mount effect and by the
    timer of [handleSaveName], which only onboarding offers. *)
Lemma settled_profile_step (P : jsstring -> Prop) (l : Label) (s s' : Sys)
    (tr : list Event) :
  coherent P s ->
  showOnboarding (ui (world s)) = false ->
  showStoragePermission (ui (world s)) = false ->
  timers (world s) = [] ->
  step l s = Some (s', tr) ->
  showOnboarding (ui (world s')) = false
  /\ showStoragePermission (ui (world s')) = false
  /\ timers (world s') = [].
Proof.
  intros Hs Ho Hp Htm Hstep. pose proof (coherent_tasks P s Hs) as Ht.
  destruct s as [w ts]. cbn in Ht, Ho, Hp, Htm.
  destruct l as [ev|i r|i r|i]; cbn in Hstep.
  - destruct (dispatch (render (ui w)) ev) as [p|] eqn:Hd; [|discriminate].
    cbn in Hstep. apply (inj Some) in Hstep.
    apply dispatch_offered in Hd. unfold turn in Hstep.
    injection Hstep as <- <-. cbn [world].
    destruct Hd as [name|?|?|?|? ?|v Hi|Hi|Hr]; try congruence.
    1-3: now repeat split.
    + destruct (blank (cityInput (ui w))) eqn:Hb.
      * rewrite run_handleSearch_blank by assumption. now repeat split.
      * rewrite run_handleSearch_start by assumption. now repeat split.
    + rewrite run_handleReset. now repeat split.
  - destruct (ts !! i) as [[c k|]|] eqn:Hi; try discriminate.
    apply (inj Some) in Hstep. unfold turn in Hstep. injection Hstep as <- <-.
    cbn [world].
    destruct (appState (ui w)) eqn:Hst;
      try (subst ts; destruct i; discriminate).
    + destruct Ht as [c' ->]. destruct i as [|i]; [|destruct i; discriminate].
      injection Hi as <- <-. rewrite run_afterWeather. destruct r as [err|d].
      * rewrite run_catch. now repeat split.
      * now repeat split.
    + destruct Ht as (d & -> & _). destruct i as [|[|i]]; discriminate.
  - destruct (ts !! i) as [[|d k]|] eqn:Hi; try discriminate.
    apply (inj Some) in Hstep. unfold turn in Hstep. injection Hstep as <- <-.
    cbn [world].
    destruct (appState (ui w)) eqn:Hst;
      try (subst ts; destruct i; discriminate).
    + destruct Ht as [c' ->]. destruct i as [|[|i]]; discriminate.
    + destruct Ht as (d' & -> & Hw).
      destruct i as [|i]; [|destruct i; discriminate].
      injection Hi as <- <-. rewrite run_afterImage. destruct r as [err|u].
      * rewrite run_catch. now repeat split.
      * now repeat split.
  - rewrite Htm in Hstep. discriminate.
Qed.

Lemma settled_profile_walk (ls : list Label) (s s' : Sys) :
  coherent (fun _ => True) s ->
  showOnboarding (ui (world s)) = false ->
  showStoragePermission (ui (world s)) = false ->
  timers (world s) = [] ->
  walk ls s = Some s' ->
  showOnboarding (ui (world s')) = false
  /\ showStoragePermission (ui (world s')) = false
  /\ timers (world s') = [].
Proof.
  revert s. induction ls as [|l ls IH]; intros s Hc Ho Hp Htm; cbn.
  - now intros [= <-].
  - destruct (step l s) as [[s1 tr]|] eqn:Hs; [|discriminate].
    destruct (settled_profile_step _ l s s1 tr Hc Ho Hp Htm Hs) as (? & ? & ?).
    apply IH; try assumption.
    eapply coherent_step; [|exact Hs|exact Hc].
    destruct l as [| |i [|u]|]; exact I.
Qed.

End DiagramFacts.

(* ===================================================================== *)
(** ** The profile: mounting, the saved name, the storage decision *)
(* ===================================================================== *)

Import DiagramFacts.

(** X1.  Mounting over a given [localStorage]: onboarding shows exactly
    when no name (or an empty one) is stored; otherwise the stored name
    becomes the user name, and the storage prompt shows exactly when no
    decision (or an empty one) is stored, so the two modals never show
    together at mount.  Mounting writes nothing, sets no timer, starts
    nothing, and leaves the fetch state machine in [IDLE] with empty
    cells. *)
Theorem mount_restores_profile (storage : gmap string jsstring) :
  showOnboarding (ui (world (init storage)))
  = negb (truthy_opt (storage !! USERNAME_KEY))
  /\ username (ui (world (init storage)))
     = (if truthy_opt (storage !! USERNAME_KEY)
        then default [] (storage !! USERNAME_KEY) else [])
  /\ showStoragePermission (ui (world (init storage)))
     = truthy_opt (storage !! USERNAME_KEY)
       && negb (truthy_opt (storage !! STORAGE_PERMISSION_KEY))
  /\ showOnboarding (ui (world (init storage)))
     && showStoragePermission (ui (world (init storage))) = false
  /\ showPrivacy (ui (world (init storage))) = false
  /\ cityInput (ui (world (init storage))) = []
  /\ request (ui (world (init storage))) = (IDLE, None, [], [])
  /\ localStorage (world (init storage)) = storage
  /\ timers (world (init storage)) = []
  /\ tasks (init storage) = [].
Proof.
  destruct (world_init storage) as [-> ->]. cbn.
  destruct (truthy_opt (storage !! USERNAME_KEY)); repeat split.
Qed.

(** X2.  The name saved by [handleSaveName] is what a later session
    starts from: mounted again over the storage it leaves, the component
    has that user name, shows onboarding again exactly when the saved name
    is empty, and prompts for storage exactly when the name is non-empty
    and no decision was stored. *)
Theorem saved_name_survives_remount (name : jsstring) (w : World) :
  username (ui (world (remount (final (run (handleSaveName name) w)))))
  = name
  /\ showOnboarding
       (ui (world (remount (final (run (handleSaveName name) w)))))
     = negb (truthy name)
  /\ showStoragePermission
       (ui (world (remount (final (run (handleSaveName name) w)))))
     = truthy name
       && negb (truthy_opt (localStorage w !! STORAGE_PERMISSION_KEY)).
Proof.
  unfold remount. rewrite (proj1 (world_init _)).
  unfold handleSaveName. cbn.
  rewrite !lookup_insert_eq. rewrite lookup_insert_ne by exact keys_differ.
  cbn. destruct name; repeat split.
Qed.

(** X3.  [handleStorageDecision] stores "granted" or "denied" under the
    permission key, leaves every other key (the saved name among them) as
    it was, and hides the prompt.  Either answer counts as a decision: a
    later session over that storage does not prompt at mount and restores
    the same user name as before the decision; and when a non-empty name
    is stored, that session never prompts, whatever happens in it.  (With
    no name stored the session starts with onboarding, and the prompt
    returns once onboarding is completed, decision or not: that is X4.) *)
Theorem storage_decision_is_remembered (allowed : bool) (w : World) :
  localStorage (final (run (handleStorageDecision allowed) w))
    !! STORAGE_PERMISSION_KEY
  = Some (if allowed then lit "granted" else lit "denied")
  /\ (forall key, key <> STORAGE_PERMISSION_KEY ->
        localStorage (final (run (handleStorageDecision allowed) w)) !! key
        = localStorage w !! key)
  /\ showStoragePermission (ui (final (run (handleStorageDecision allowed) w)))
     = false
  /\ showStoragePermission
       (ui (world (remount (final (run (handleStorageDecision allowed) w)))))
     = false
  /\ username
       (ui (world (remount (final (run (handleStorageDecision allowed) w)))))
     = username (ui (world (remount w)))
  /\ (truthy_opt (localStorage w !! USERNAME_KEY) = true ->
      forall ls s',
        walk ls (remount (final (run (handleStorageDecision allowed) w)))
        = Some s' ->
        showStoragePermission (ui (world s')) = false).
Proof.
  assert (showStoragePermission
            (ui (world (remount
                          (final (run (handleStorageDecision allowed) w)))))
          = false) as Hmount.
  { unfold remount. rewrite (proj1 (world_init _)).
    unfold handleStorageDecision. cbn. rewrite !lookup_insert_eq.
    destruct allowed; cbn; apply andb_false_r. }
  split; [|split; [|split; [|split; [exact Hmount|split]]]].
  - unfold handleStorageDecision. cbn. apply lookup_insert_eq.
  - intros key Hk. unfold handleStorageDecision. cbn.
    now rewrite lookup_insert_ne.
  - reflexivity.
  - unfold remount. rewrite !(proj1 (world_init _)).
    unfold handleStorageDecision. cbn.
    now rewrite !lookup_insert_ne by (intros H; now apply keys_differ).
  - intros Hname ls s' Hwalk.
    eapply (settled_profile_walk ls); [| | | |exact Hwalk].
    + apply coherent_init.
    + unfold remount. rewrite (proj1 (world_init _)).
      unfold handleStorageDecision. cbn.
      rewrite lookup_insert_ne by (intros H; now apply keys_differ).
      now rewrite Hname.
    + exact Hmount.
    + unfold remount. now rewrite (proj1 (world_init _)).
Qed.

Lemma storage_decision_is_remembered_witness :
  localStorage Tour.home !! USERNAME_KEY = Some (lit "Ada")
  /\ truthy_opt (localStorage (final (run (handleSaveName (lit "Ada"))
                                        (world (init ∅))))
                 !! USERNAME_KEY) = true
  /\ walk Tour.returning (remount Tour.home) = Some Tour.returned
  /\ showStoragePermission (ui (world Tour.returned)) = false.
Proof.
  pose proof (storage_decision_is_remembered false
                (final (run (handleSaveName (lit "Ada")) (world (init ∅)))))
    as (_ & Hkeys & _ & _ & _ & Hsession).
  assert (truthy_opt (localStorage (final (run (handleSaveName (lit "Ada"))
                                             (world (init ∅))))
                      !! USERNAME_KEY) = true) as Hname
    by (vm_compute; reflexivity).
  assert (walk Tour.returning (remount Tour.home) = Some Tour.returned)
    as Hwalk by (vm_compute; reflexivity).
  split; [|split; [exact Hname|split; [exact Hwalk|]]].
  - unfold Tour.home. rewrite (Hkeys USERNAME_KEY keys_differ).
    vm_compute. reflexivity.
  - exact (Hsession Hname Tour.returning Tour.returned Hwalk).
Defined.

(** X4.  Completing onboarding stores the name, hides onboarding, and sets
    one timer of 500 ms; until it fires the storage prompt is as it was,
    and when it fires the prompt shows, whatever [localStorage] holds
    (unlike at mount, no stored decision is looked up).  Neither step
    touches the fetch state machine or what is in flight. *)
Theorem saving_name_prompts_for_storage (s : Sys) (name : jsstring) :
  showOnboarding (ui (world s)) = true ->
  exists s1 tr1 s2 tr2,
    step (Ui (OnboardingComplete name)) s = Some (s1, tr1)
    /\ timers (world s1) = timers (world s) ++ [(ShowStoragePermission, 500%N)]
    /\ showStoragePermission (ui (world s1))
       = showStoragePermission (ui (world s))
    /\ step (TimerFires (length (timers (world s)))) s1 = Some (s2, tr2)
    /\ showStoragePermission (ui (world s2)) = true
    /\ showOnboarding (ui (world s2)) = false
    /\ username (ui (world s2)) = name
    /\ localStorage (world s2)
       = <[USERNAME_KEY := name]> (localStorage (world s))
    /\ timers (world s2) = timers (world s)
    /\ tasks s2 = tasks s
    /\ request (ui (world s2)) = request (ui (world s)).
Proof.
  intros Ho. destruct s as [w ts]. cbn in Ho.
  eexists _, _, _, _. split.
  { cbn. rewrite Ho. cbn. unfold turn, handleSaveName. cbn. reflexivity. }
  cbn. split; [reflexivity|]. split; [reflexivity|]. split.
  { rewrite list_lookup_middle by reflexivity. unfold turn. cbn. reflexivity. }
  cbn. rewrite !app_nil_r. repeat split.
  rewrite (delete_middle (timers w) []). apply app_nil_r.
Qed.

Lemma saving_name_prompts_for_storage_witness :
  showOnboarding (ui (world (init ∅))) = true
  /\ exists s1 tr1 s2 tr2,
       step (Ui (OnboardingComplete (lit "Ada"))) (init ∅) = Some (s1, tr1)
       /\ step (TimerFires 0) s1 = Some (s2, tr2)
       /\ showStoragePermission (ui (world s2)) = true.
Proof.
  assert (showOnboarding (ui (world (init ∅))) = true) as Ho by reflexivity.
  split; [exact Ho|].
  destruct (saving_name_prompts_for_storage (init ∅) (lit "Ada") Ho)
    as (s1 & tr1 & s2 & tr2 & H1 & _ & _ & H2 & H3 & _).
  exists s1, tr1, s2, tr2. split; [exact H1|]. split; [exact H2|exact H3].
Defined.

(* ===================================================================== *)
(** ** The overlays and the fetch state machine *)
(* ===================================================================== *)

(** X5.  The overlay callbacks (saving the name, the storage decision,
    opening and closing the privacy policy, typing in the input) and the
    timers leave the fetch state machine alone: whatever the state, such a
    step keeps [appState], the record, the image reference and the error
    message, keeps what is in flight, and calls no collaborator. *)
Theorem overlays_leave_the_request_alone
    (l : Label) (s s' : Sys) (tr : list Event) :
  (exists ev, l = Ui ev /\ ev <> FormSubmit /\ ev <> ResetClick)
  \/ (exists i, l = TimerFires i) ->
  step l s = Some (s', tr) ->
  request (ui (world s')) = request (ui (world s))
  /\ tasks s' = tasks s
  /\ calls tr = [].
Proof.
  intros Hl Hs. destruct s as [w ts].
  assert (forall p w0, overlay p -> request (ui w0) = request (ui w) ->
            turn p w0 ts = (s', tr) ->
            request (ui (world s')) = request (ui w) /\ tasks s' = ts
            /\ calls tr = []) as Hov.
  { intros p w0 Ho Hq Ht.
    destruct (run_overlay_frame p w0 Ho) as (Hr & Hc & Hq' & _).
    unfold turn in Ht. injection Ht as <- <-. cbn. rewrite Hr, app_nil_r.
    repeat split; congruence. }
  destruct Hl as [(ev & -> & Hne1 & Hne2)|(i & ->)]; cbn in Hs.
  - destruct (dispatch (render (ui w)) ev) as [p|] eqn:Hd; [|discriminate].
    cbn in Hs. apply (inj Some) in Hs.
    eapply Hov; [| |exact Hs]; [|reflexivity].
    eapply dispatch_overlay; eauto.
  - destruct (timers w !! i) as [[cb ms]|]; [|discriminate].
    apply (inj Some) in Hs.
    eapply Hov; [| |exact Hs]; [constructor|reflexivity].
Qed.

Lemma overlays_leave_the_request_alone_witness :
  exists s' tr,
    step (Ui (OnboardingComplete (lit "Ada"))) Tour.painting = Some (s', tr)
    /\ request (ui (world s')) = request (ui (world Tour.painting))
    /\ tasks s' = tasks Tour.painting
    /\ calls tr = [].
Proof.
  eexists _, _. split; [reflexivity|].
  apply (overlays_leave_the_request_alone
           (Ui (OnboardingComplete (lit "Ada"))) Tour.painting).
  - left. exists (OnboardingComplete (lit "Ada")).
    split; [reflexivity|]. split; discriminate.
  - reflexivity.
Defined.

(** X6.  [handleReset] does not clear the error message.  After the
    quota-exhausted screen, a reset therefore shows the entry form without
    the user menu and without the ad banner; the message is cleared, and
    the banner is back, once a non-blank city is submitted. *)
Theorem reset_keeps_the_error_message (w : World) :
  errorMsg (ui (final (run handleReset w))) = errorMsg (ui w)
  /\ (isDailyLimitError (ui w) = true ->
      screen (render (ui (final (run handleReset w))))
      = EntryForm [] (fun v => perform (SetCityInput v))
          (fun e => handleSearch [] (Some e))
      /\ userMenu (render (ui (final (run handleReset w)))) = None
      /\ adBanner (render (ui (final (run handleReset w)))) = None)
  /\ (forall c e,
        blank c = false ->
        errorMsg (ui (final (run (handleSearch c e)
                               (final (run handleReset w))))) = []
        /\ adBanner (render (ui (final (run (handleSearch c e)
                                          (final (run handleReset w))))))
           = Some AD_BANNER_ID).
Proof.
  rewrite run_handleReset. split; [reflexivity|]. split.
  - intros Hd. cbn. unfold isDailyLimitError in *. cbn. rewrite Hd.
    rewrite andb_false_r. repeat split.
  - intros c e Hb. rewrite run_handleSearch_start by assumption.
    split; reflexivity.
Qed.

Lemma reset_keeps_the_error_message_witness :
  isDailyLimitError (ui (world Tour.refused)) = true
  /\ adBanner (render (ui (final (run handleReset (world Tour.refused)))))
     = None
  /\ blank (lit "Oslo") = false
  /\ adBanner (render (ui (final (run (handleSearch (lit "Oslo") None)
                                   (final (run handleReset
                                             (world Tour.refused)))))))
     = Some AD_BANNER_ID.
Proof.
  pose proof (reset_keeps_the_error_message (world Tour.refused))
    as (_ & H1 & H2).
  split; [reflexivity|]. split; [apply (H1 eq_refl)|].
  split; [reflexivity|]. apply (H2 (lit "Oslo") None eq_refl).
Defined.

(** X7.  In every state the event loop reaches, a step moves [appState]
    along the diagram only: from [IDLE] to [FETCHING_WEATHER]; from there
    to [GENERATING_IMAGE] or [ERROR]; from [GENERATING_IMAGE] to [DISPLAY]
    or [ERROR]; from [DISPLAY] and from [ERROR] back to [IDLE]; or it stays
    where it is. *)
Theorem appState_follows_the_diagram
    (l : Label) (s s' : Sys) (tr : list Event) :
  reachable any_label s -> step l s = Some (s', tr) ->
  edge (appState (ui (world s))) (appState (ui (world s'))) = true.
Proof.
  intros Hr Hs. apply transition_edge.
  eapply step_transition; [|exact Hs]. now apply reachable_any_coherent.
Qed.

Lemma appState_follows_the_diagram_witness :
  reachable any_label Samples.visited
  /\ exists s' tr,
       step (Ui ResetClick) Samples.visited = Some (s', tr)
       /\ edge (appState (ui (world Samples.visited)))
            (appState (ui (world s'))) = true.
Proof.
  split; [exact visited_reachable|].
  eexists _, _. split; [reflexivity|].
  apply (appState_follows_the_diagram (Ui ResetClick) Samples.visited _ _
           visited_reachable eq_refl).
Defined.

(** X8.  No stale data: in every state the event loop reaches, the image
    reference is empty outside [DISPLAY], and no record is stored in
    [IDLE] and in [FETCHING_WEATHER]. *)
Theorem no_stale_record_or_image (s : Sys) :
  reachable any_label s ->
  (appState (ui (world s)) <> DISPLAY -> generatedImage (ui (world s)) = [])
  /\ (appState (ui (world s)) = IDLE
      \/ appState (ui (world s)) = FETCHING_WEATHER ->
      weatherData (ui (world s)) = None).
Proof.
  intros Hr. apply reachable_tidy in Hr. unfold tidy in Hr.
  destruct (appState (ui (world s))); split; intros H; try tauto;
    destruct H; congruence.
Qed.

Lemma no_stale_record_or_image_witness :
  reachable any_label Tour.refused
  /\ appState (ui (world Tour.refused)) <> DISPLAY
  /\ generatedImage (ui (world Tour.refused)) = [].
Proof.
  split; [exact refused_reachable|]. split; [discriminate|].
  apply (proj1 (no_stale_record_or_image Tour.refused refused_reachable)).
  discriminate.
Defined.

(** X9.  In every state the event loop reaches, [ERROR] comes with a
    non-empty message, while the loaders and [DISPLAY] have an empty one,
    so that the ad banner is rendered on them. *)
Theorem error_message_only_in_error (s : Sys) :
  reachable any_label s ->
  (appState (ui (world s)) = ERROR -> errorMsg (ui (world s)) <> [])
  /\ (appState (ui (world s)) = FETCHING_WEATHER
      \/ appState (ui (world s)) = GENERATING_IMAGE
      \/ appState (ui (world s)) = DISPLAY ->
      errorMsg (ui (world s)) = []
      /\ adBanner (render (ui (world s))) = Some AD_BANNER_ID).
Proof.
  intros Hr. apply reachable_tidy in Hr. unfold tidy in Hr.
  split.
  - intros H. rewrite H in Hr. tauto.
  - intros H.
    assert (errorMsg (ui (world s)) = []) as He
      by (destruct H as [H|[H|H]]; rewrite H in Hr; tauto).
    split; [exact He|]. cbn. unfold isDailyLimitError. now rewrite He.
Qed.

Lemma error_message_only_in_error_witness :
  reachable any_label Tour.refused
  /\ appState (ui (world Tour.refused)) = ERROR
  /\ errorMsg (ui (world Tour.refused)) <> []
  /\ reachable any_label Tour.painting
  /\ appState (ui (world Tour.painting)) = GENERATING_IMAGE
  /\ adBanner (render (ui (world Tour.painting))) = Some AD_BANNER_ID.
Proof.
  split; [exact refused_reachable|]. split; [reflexivity|]. split.
  { apply (proj1 (error_message_only_in_error Tour.refused refused_reachable)).
    reflexivity. }
  split; [exact painting_reachable|]. split; [reflexivity|].
  apply (proj2 (error_message_only_in_error Tour.painting painting_reachable)).
  right. left. reflexivity.
Defined.

(** X10.  In every state the event loop reaches, one of the five screens
    is rendered: the case of the JSX that renders none ([DISPLAY] without
    a record) does not arise. *)
Theorem some_screen_is_always_shown (s : Sys) :
  reachable any_label s -> screen (render (ui (world s))) <> NoScreen.
Proof.
  intros Hr. apply reachable_any_coherent in Hr.
  destruct Hr as [w [H|H]|w d H Hw _|w c H|w d H Hw]; cbn;
    unfold renderScreen; rewrite H; try rewrite Hw; try discriminate.
  destruct (isDailyLimitError (ui w)); discriminate.
Qed.

Lemma some_screen_is_always_shown_witness :
  reachable any_label Samples.visited
  /\ screen (render (ui (world Samples.visited))) <> NoScreen.
Proof.
  split; [exact visited_reachable|].
  apply (some_screen_is_always_shown Samples.visited visited_reachable).
Defined.

(** X11.  Onboarding does not come back within a session: a step of the
    event loop that completes onboarding hides it, and no step shows it
    once it is hidden. *)
Theorem onboarding_does_not_come_back
    (l : Label) (s s' : Sys) (tr : list Event) :
  reachable any_label s -> step l s = Some (s', tr) ->
  showOnboarding (ui (world s)) = false
  \/ (exists name, l = Ui (OnboardingComplete name)) ->
  showOnboarding (ui (world s')) = false.
Proof.
  intros Hr Hs [Ho|[name ->]].
  - pose proof (step_transition _ _ _ _ _ (reachable_any_coherent s Hr) Hs)
      as Ht.
    apply not_true_is_false. intros H.
    apply (transition_onboarding _ _ Ht) in H. congruence.
  - destruct s as [w ts]. cbn in Hs.
    destruct (showOnboarding (ui w)); [|discriminate].
    cbn in Hs. apply (inj Some) in Hs. unfold turn in Hs.
    injection Hs as <- <-. reflexivity.
Qed.

Lemma onboarding_does_not_come_back_witness :
  reachable any_label Samples.visited
  /\ exists s' tr,
       step (Ui (OnboardingComplete (lit "Ada"))) Samples.visited
       = Some (s', tr)
       /\ showOnboarding (ui (world s')) = false.
Proof.
  split; [exact visited_reachable|].
  eexists _, _. split; [reflexivity|].
  apply (onboarding_does_not_come_back
           (Ui (OnboardingComplete (lit "Ada"))) Samples.visited _ _
           visited_reachable eq_refl).
  right. exists (lit "Ada"). reflexivity.
Defined.

(** X12.  In every state the event loop reaches, the loader reads
    "Consulting the skies..." during the lookup; during the generation it
    reads "Painting <city>...", where the city is the native name of the
    record the lookup returned (the one the generation in flight was
    called with), or the typed input when that name is empty. *)
Theorem loader_names_the_fetched_city (s : Sys) :
  reachable any_label s ->
  (appState (ui (world s)) = FETCHING_WEATHER ->
   screen (render (ui (world s)))
   = GlassyLoader (lit "Consulting the skies..."))
  /\ (appState (ui (world s)) = GENERATING_IMAGE ->
      exists d,
        tasks s = [WaitImage d afterImage]
        /\ weatherData (ui (world s)) = Some d
        /\ screen (render (ui (world s)))
           = GlassyLoader
               (lit "Painting "
                ++ (if truthy (cityNativeName d) then cityNativeName d
                    else cityInput (ui (world s)))
                ++ lit "...")).
Proof.
  intros Hr. split; intros H.
  - cbn. unfold renderScreen, loaderStatus. now rewrite H.
  - apply reachable_any_coherent, coherent_tasks in Hr. rewrite H in Hr.
    destruct Hr as (d & Ht & Hw). exists d. split; [exact Ht|].
    split; [exact Hw|].
    cbn. unfold renderScreen, loaderStatus. now rewrite H, Hw.
Qed.

Lemma loader_names_the_fetched_city_witness :
  reachable any_label Tour.painting
  /\ appState (ui (world Tour.painting)) = GENERATING_IMAGE
  /\ exists d,
       tasks Tour.painting = [WaitImage d afterImage]
       /\ weatherData (ui (world Tour.painting)) = Some d
       /\ screen (render (ui (world Tour.painting)))
          = GlassyLoader
              (lit "Painting "
               ++ (if truthy (cityNativeName d) then cityNativeName d
                   else cityInput (ui (world Tour.painting)))
               ++ lit "...").
Proof.
  split; [exact painting_reachable|]. split; [reflexivity|].
  apply (proj2 (loader_names_the_fetched_city Tour.painting
                  painting_reachable)).
  reflexivity.
Defined.

(** X13.  In every state the event loop reaches, the dark background is
    chosen exactly in [DISPLAY] with a record that says night. *)
Theorem dark_background_only_at_night (s : Sys) :
  reachable any_label s ->
  (isDarkBg (ui (world s)) = true <->
   appState (ui (world s)) = DISPLAY
   /\ exists d, weatherData (ui (world s)) = Some d /\ isDay d = false).
Proof.
  intros Hr. unfold isDarkBg. split.
  - intros H. apply andb_true_iff in H as [Hd Hn].
    apply bool_decide_eq_true_1 in Hd. split; [exact Hd|].
    destruct (display_has_record s Hr Hd) as [d Hw]. exists d.
    split; [exact Hw|]. rewrite Hw in Hn. now apply negb_true_iff.
  - intros (Hd & d & Hw & Hn). rewrite Hd, Hw, Hn. reflexivity.
Qed.

Lemma dark_background_only_at_night_witness :
  reachable any_label Samples.visited
  /\ (isDarkBg (ui (world Samples.visited)) = true <->
      appState (ui (world Samples.visited)) = DISPLAY
      /\ exists d,
           weatherData (ui (world Samples.visited)) = Some d
           /\ isDay d = false).
Proof.
  split; [exact visited_reachable|].
  apply (dark_background_only_at_night Samples.visited visited_reachable).
Defined.

(** X14.  A submission, however its two calls settle, leaves the profile
    and the input alone: [localStorage], the timers, the typed city, the
    user name and the three modal flags are after [handleSearch] what they
    were before. *)
Theorem submission_keeps_profile_and_input
    (env : Collaborators) (c : jsstring) (e : option FormEvent) (w : World) :
  localStorage (final (exec env (handleSearch c e) w)) = localStorage w
  /\ timers (final (exec env (handleSearch c e) w)) = timers w
  /\ cityInput (ui (final (exec env (handleSearch c e) w))) = cityInput (ui w)
  /\ username (ui (final (exec env (handleSearch c e) w))) = username (ui w)
  /\ showOnboarding (ui (final (exec env (handleSearch c e) w)))
     = showOnboarding (ui w)
  /\ showStoragePermission (ui (final (exec env (handleSearch c e) w)))
     = showStoragePermission (ui w)
  /\ showPrivacy (ui (final (exec env (handleSearch c e) w)))
     = showPrivacy (ui w).
Proof.
  destruct (blank c) eqn:Hb.
  { rewrite exec_handleSearch_blank by assumption. repeat split. }
  rewrite exec_replay.
  destruct (weather_of env c) as [err|d] eqn:Hw.
  { rewrite (exec_handleSearch_lookup_fails env c e w err Hb Hw).
    destruct e; repeat split. }
  destruct (image_of env d) as [err|u] eqn:Hg.
  - rewrite (exec_handleSearch_generation_fails env c e w d err Hb Hw Hg).
    destruct e; repeat split.
  - rewrite (exec_handleSearch_succeeds env c e w d u Hb Hw Hg).
    destruct e; repeat split.
Qed.

(** X15.  While a call is in flight nothing the user does cancels or
    alters the request: in [FETCHING_WEATHER] and [GENERATING_IMAGE] the
    tree has no form, no input and no reset button, and any user event that
    can happen keeps the cells of the fetch state machine, the typed city
    and the task in flight, and calls no collaborator. *)
Theorem no_cancel_while_loading
    (ev : UiEvent) (s s' : Sys) (tr : list Event) :
  appState (ui (world s)) = FETCHING_WEATHER
  \/ appState (ui (world s)) = GENERATING_IMAGE ->
  step (Ui FormSubmit) s = None
  /\ step (Ui ResetClick) s = None
  /\ (forall v, step (Ui (InputChange v)) s = None)
  /\ (step (Ui ev) s = Some (s', tr) ->
      request (ui (world s')) = request (ui (world s))
      /\ cityInput (ui (world s')) = cityInput (ui (world s))
      /\ tasks s' = tasks s
      /\ calls tr = []).
Proof.
  intros Hl. destruct s as [w ts]. cbn [world tasks] in *.
  assert (screen (render (ui w)) = GlassyLoader (loaderStatus (ui w))) as Hscr
    by (cbn; unfold renderScreen; now destruct Hl as [-> | ->]).
  assert (forall e,
            e = FormSubmit \/ e = ResetClick \/ (exists v, e = InputChange v) ->
            step (Ui e) (mkSys w ts) = None) as Hnone.
  { intros e He. unfold step, dispatch. cbn [world].
    destruct He as [-> |[-> |[v ->]]]; now rewrite Hscr. }
  split; [apply Hnone; auto|]. split; [apply Hnone; auto|].
  split; [intros v; apply Hnone; eauto|].
  intros Hs.
  destruct ev; try (rewrite Hnone in Hs by eauto; discriminate);
    cbn in Hs; unfold when in Hs;
    match type of Hs with context [if ?b then _ else _] => destruct b end;
    cbn in Hs; try discriminate; apply (inj Some) in Hs;
    unfold turn, handleSaveName, handleAllowStorage, handleDenyStorage,
      handleStorageDecision, handleClosePrivacy, handleOpenPrivacy in Hs;
    cbn in Hs; injection Hs as <- <-; cbn; rewrite app_nil_r; repeat split.
Qed.

Lemma no_cancel_while_loading_witness :
  appState (ui (world Tour.painting)) = GENERATING_IMAGE
  /\ step (Ui ResetClick) Tour.painting = None
  /\ exists s' tr,
       step (Ui (OnboardingComplete (lit "Ada"))) Tour.painting
       = Some (s', tr)
       /\ tasks s' = tasks Tour.painting.
Proof.
  assert (appState (ui (world Tour.painting)) = GENERATING_IMAGE) as Hg
    by reflexivity.
  assert (exists s' tr,
            step (Ui (OnboardingComplete (lit "Ada"))) Tour.painting
            = Some (s', tr)) as (s' & tr & Hs)
    by (eexists _, _; reflexivity).
  destruct (no_cancel_while_loading (OnboardingComplete (lit "Ada"))
              Tour.painting s' tr (or_intror Hg))
    as (_ & Hreset & _ & Hkeep).
  split; [exact Hg|]. split; [exact Hreset|].
  exists s', tr. split; [exact Hs|]. apply (Hkeep Hs).
Defined.

(** X16.  The white space around a city only matters for the emptiness
    test: a non-blank input is passed to the lookup exactly as typed, not
    trimmed. *)
Theorem lookup_gets_the_input_untrimmed
    (c : jsstring) (e : option FormEvent) (w : World) :
  blank c = false ->
  calls (trace (run (handleSearch c e) w)) = [CallGetCityWeather c]
  /\ result (run (handleSearch c e) w)
     = Suspended (WaitWeather c afterWeather).
Proof.
  intros Hb. rewrite run_handleSearch_start by assumption.
  destruct e; split; reflexivity.
Qed.

Lemma lookup_gets_the_input_untrimmed_witness :
  blank (lit "  Kyoto ") = false
  /\ trim (lit "  Kyoto ") = lit "Kyoto"
  /\ calls (trace (run (handleSearch (lit "  Kyoto ") None)
                     (Samples.typed "  Kyoto ")))
     = [CallGetCityWeather (lit "  Kyoto ")].
Proof.
  split; [reflexivity|]. split; [reflexivity|].
  apply (lookup_gets_the_input_untrimmed (lit "  Kyoto ") None
           (Samples.typed "  Kyoto ") eq_refl).
Defined.
